(** * The SEIR state-space model and the transmission-rate controller

    A shallow embedding of [covasim_controller/SEIR.py] (the classes
    [TransitionMatrix] and [SEIR]) and of
    [covasim_controller/controller_intervention.py] (the intervention
    [controller_intervention] with [initialize] and [apply]), followed by the
    properties of the two files.

    Conventions of the embedding.
    - Python and numpy floats are read as exact rationals ([Qc], rationals in
      lowest terms, so that [=] is equality of numbers).  The statements about
      the rates name the expression the code evaluates and do not rest on an
      identity that rounding breaks; what rounding does to one such expression
      is computed in binary64 ([Binary64]).  A division whose divisor is zero
      has no rational value: Python raises [ZeroDivisionError] there and numpy
      answers [inf] or [nan]; the model stops with [ZeroDivisionError] in both
      cases.
    - A 2-d array is the list of its rows, so an array without rows does not
      carry its number of columns; it reads as having none.  The arrays that
      the properties stack have at least one row.
    - [np.matrix] and [np.ndarray] share one representation.  The product
      [*] of [check_observability] is the matrix product, which is what [*]
      means when its left operand is an [np.matrix], as the row [C] of lines
      51-52 is.
    - An instance of [SEIR] is its attribute dictionary; reading a name that
      neither the instance nor the class has raises [AttributeError].
    - A Python statement sequence is a computation in a monad that threads the
      mutable store and stops at the first exception.  The store reached so
      far survives the exception, as it does in Python.  The store of the
      intervention carries a log of the calls an observer can see: estimator
      updates, controller consultations and prints.
    - [np.linalg.matrix_rank] and [np.power] are library functions and the
      classes [Kalman] and [Controller] belong to other modules; they are
      parameters of the model (type classes), with small instances for the
      examples. *)

From Stdlib Require Import ZArith QArith Qcanon Lia.
From Stdlib Require PrimFloat.
From stdpp Require Import base numbers list gmap strings.

Open Scope Qc_scope.

(** ** Exceptions and outcomes *)

Inductive exn : Type :=
| AttributeError
| TypeError
| IndexError
| KeyError
| ValueError
| AssertionError
| ZeroDivisionError.

Inductive outcome (A : Type) : Type :=
| Ok (a : A)
| Raise (e : exn).

Arguments Ok {A} a.
Arguments Raise {A} e.

#[global] Instance exn_eq_dec : EqDecision exn.
Proof. solve_decision. Defined.

#[global] Instance outcome_eq_dec {A} `{EqDecision A} : EqDecision (outcome A).
Proof. solve_decision. Defined.

#[global] Instance outcome_ret : MRet outcome := fun A a => Ok a.

#[global] Instance outcome_bind : MBind outcome := fun A B f x =>
  match x with
  | Ok a => f a
  | Raise e => Raise e
  end.

(** An integer literal as a number. *)
Definition num (z : Z) : Qc := Qc_of_Z z.

(** ** The numpy operations the two files call *)

Module np.

(** A 2-d array of numbers, as the list of its rows. *)
Abbreviation matrix := (list (list Qc)).

Definition nrows (M : matrix) : nat := length M.

Definition ncols (M : matrix) : nat :=
  match M with
  | [] => 0%nat
  | r :: _ => length r
  end.

(** [M.shape] *)
Definition shape (M : matrix) : nat * nat := (nrows M, ncols M).

(** [M.size] *)
Definition size (M : matrix) : nat := (nrows M * ncols M)%nat.

(** [np.zeros((r, c))] *)
Definition zeros (r c : nat) : matrix := replicate r (replicate c 0).

(** [np.zeros(c)], one-dimensional *)
Definition zeros1 (c : nat) : list Qc := replicate c 0.

(** [M.ravel()]: the entries in row-major (C) order. *)
Definition ravel (M : matrix) : list Qc := concat M.

(** [flat.reshape((r, c))] *)
Definition reshape (r c : nat) (flat : list Qc) : matrix :=
  (fun i => take c (drop (i * c) flat)) <$> seq 0 r.

(** The index pairs of the lower triangle, row by row. *)
Definition tril_pairs (n : nat) : list (nat * nat) :=
  i ← seq 0 n; pair i <$> seq 0 (S i).

(** [np.tril_indices(n)]: the row indices and the column indices of the lower
    triangle (diagonal included), in row-major order. *)
Definition tril_indices (n : nat) : list nat * list nat :=
  (fst <$> tril_pairs n, snd <$> tril_pairs n).

(** [np.ravel_multi_index((rs, cs), (r, c))]: flat positions of the index
    pairs; an index outside the shape is a [ValueError]. *)
Fixpoint ravel_multi_index_go (rs cs : list nat) (r c : nat)
  : outcome (list nat) :=
  match rs, cs with
  | i :: rs', j :: cs' =>
      if decide (i < r ∧ j < c)%nat
      then rest ← ravel_multi_index_go rs' cs' r c; Ok ((i * c + j)%nat :: rest)
      else Raise ValueError
  | _, _ => Ok []
  end.

Definition ravel_multi_index (ix : list nat * list nat) (shp : nat * nat)
  : outcome (list nat) :=
  ravel_multi_index_go ix.1 ix.2 shp.1 shp.2.

(** The loop of [np.put]: the [k]-th index receives the value [v[k mod nv]]
    (values are repeated when there are fewer of them than indices, surplus
    values are never read); an index outside the array is an [IndexError]. *)
Fixpoint put_from (k : nat) (ind : list nat) (v : list Qc) (a : list Qc)
  : outcome (list Qc) :=
  match ind with
  | [] => Ok a
  | i :: ind' =>
      if decide (i < length a)%nat
      then match v !! (k mod length v)%nat with
           | Some x => put_from (S k) ind' v (<[i := x]> a)
           | None => Ok a
           end
      else Raise IndexError
  end.

(** [np.put(M, ind, v)] as the array it leaves in [M]: the flat view of [M] is
    overwritten at the positions [ind].  With no values nothing is written;
    writing into an array without elements is an [IndexError]. *)
Definition put (M : matrix) (ind : list nat) (v : list Qc) : outcome matrix :=
  if decide (ind ≠ [] ∧ size M = 0%nat) then Raise IndexError
  else if decide (v = []) then Ok M
  else flat ← put_from 0 ind v (ravel M);
       Ok (reshape (nrows M) (ncols M) flat).

(** Sum of a list of numbers. *)
Definition sum (l : list Qc) : Qc := foldr Qcplus 0 l.

(** Column [j] of a 2-d array. *)
Definition column (M : matrix) (j : nat) : list Qc :=
  (fun r => default 0 (r !! j)) <$> M.

(** [np.sum(M, axis=0)]: the sum of every column. *)
Definition sum_axis0 (M : matrix) : list Qc :=
  (fun j => sum (column M j)) <$> seq 0 (ncols M).

(** [1 - v], elementwise. *)
Definition one_minus (v : list Qc) : list Qc := (fun x => 1 - x) <$> v.

(** [M[0,:] = v]: the first row is overwritten; [v] has the row's length or a
    single element that is broadcast. *)
Definition set_row0 (M : matrix) (v : list Qc) : outcome matrix :=
  match M with
  | [] => Raise IndexError
  | r :: M' =>
      if decide (length v = length r) then Ok (v :: M')
      else match v with
           | [x] => Ok (replicate (length r) x :: M')
           | _ => Raise ValueError
           end
  end.

(** Blocks side by side; they need the same number of rows. *)
Definition hstack (bs : list matrix) : outcome matrix :=
  match bs with
  | [] => Raise ValueError
  | b :: bs' =>
      if decide (Forall (fun b' => nrows b' = nrows b) bs')
      then Ok (foldr (zip_with app) (replicate (nrows b) []) bs)
      else Raise ValueError
  end.

(** [np.vstack]: blocks on top of each other; they need the same number of
    columns.  A block without rows reads as having no columns. *)
Definition vstack (bs : list matrix) : outcome matrix :=
  match bs with
  | [] => Raise ValueError
  | b :: bs' =>
      if decide (Forall (fun b' => ncols b' = ncols b) bs')
      then Ok (concat bs)
      else Raise ValueError
  end.

(** [np.block] of a list of block rows (scalars and 1-d arrays already
    promoted to two dimensions, as [np.block] does). *)
Definition block (bss : list (list matrix)) : outcome matrix :=
  rows ← mapM hstack bss; vstack rows.

(** [l[1:-1]] *)
Definition inner {A} (l : list A) : list A := take (length l - 2) (drop 1 l).

(** [M[1:-1, 1:-1]] *)
Definition inner2 (M : matrix) : matrix := inner <$> inner M.

(** [M[:, 1:-1]] *)
Definition inner_cols (M : matrix) : matrix := inner <$> M.

Definition dot (u v : list Qc) : Qc := sum (zip_with Qcmult u v).

(** Rows of [X] times columns of [Y]. *)
Definition product (X Y : matrix) : matrix :=
  (fun row => (fun j => dot row (column Y j)) <$> seq 0 (ncols Y)) <$> X.

(** The matrix product [X * Y] of [matrix]; the inner dimensions have to
    agree. *)
Definition matmul (X Y : matrix) : outcome matrix :=
  if decide (ncols X = nrows Y) then Ok (product X Y)
  else Raise ValueError.

End np.

(** ** [TransitionMatrix] *)

Module TransitionMatrix.

(** [int((-1 + np.sqrt(1 + 8*k))/2)].  [np.sqrt] is correctly rounded, so for
    every length a list can have the truncated quotient is the integer
    [(isqrt (1 + 8k) - 1) / 2]. *)
Definition order (k : nat) : nat := ((Nat.sqrt (1 + 8 * k) - 1) / 2)%nat.

(** [TransitionMatrix.full(p)] *)
Definition full (p : list Qc) : outcome np.matrix :=
  let n := order (length p) in
  let M := np.zeros n n in
  ind ← np.ravel_multi_index (np.tril_indices n) (np.shape M);
  np.put M ind p.

(** The row-major flattening of the lower triangle of [L], diagonal
    included: row [i] contributes its first [i + 1] entries. *)
Definition tril_flatten (L : np.matrix) : list Qc :=
  concat (imap (fun i row => take (S i) row) L).

End TransitionMatrix.

(** An [r] by [c] array. *)
Definition is_matrix (r c : nat) (M : np.matrix) : Prop :=
  length M = r ∧ Forall (fun row => length row = c) M.

(** Entry [(i, j)], if there is one. *)
Definition entry (M : np.matrix) (i j : nat) : option Qc :=
  M !! i ≫= fun row => row !! j.

(** An [n] by [n] array whose entries above the diagonal are zero. *)
Definition lower_triangular (n : nat) (L : np.matrix) : Prop :=
  is_matrix n n L ∧ ∀ i j x, (i < j)%nat → entry L i j = Some x → x = 0.

(** The triangular numbers [n (n + 1) / 2]. *)
Fixpoint tri (n : nat) : nat :=
  match n with
  | O => O
  | S m => (tri m + S m)%nat
  end.

(** ** Programs over a mutable store *)

(** A statement sequence: it transforms the store and either yields a value or
    raises; the store reached so far is kept in both cases. *)
Definition prog (Σ A : Type) : Type := Σ → Σ * outcome A.

#[global] Instance prog_ret {Σ} : MRet (prog Σ) := fun A a σ => (σ, Ok a).

#[global] Instance prog_bind {Σ} : MBind (prog Σ) := fun A B f c σ =>
  match c σ with
  | (σ', Ok a) => f a σ'
  | (σ', Raise e) => (σ', Raise e)
  end.

Definition raise {Σ A} (e : exn) : prog Σ A := fun σ => (σ, Raise e).

Definition lift {Σ A} (x : outcome A) : prog Σ A := fun σ => (σ, x).

Definition get {Σ} : prog Σ Σ := fun σ => (σ, Ok σ).

Definition modify {Σ} (f : Σ → Σ) : prog Σ unit := fun σ => (f σ, Ok tt).

(** [if b: c] *)
Definition when {Σ} (b : bool) (c : prog Σ unit) : prog Σ unit :=
  if b then c else mret tt.

(** [for x in l: body x] *)
Fixpoint for_each {Σ A} (l : list A) (body : A → prog Σ unit) : prog Σ unit :=
  match l with
  | [] => mret tt
  | x :: l' => body x ;; for_each l' body
  end.

(** [a / b] *)
Definition divide (a b : Qc) : outcome Qc :=
  if decide (b = 0) then Raise ZeroDivisionError else Ok (a / b).

(** [np.maximum(a, b)] on numbers *)
Definition maximum (a b : Qc) : Qc := if decide (a ≤ b) then b else a.

(** [l[i]] for a Python integer [i]: a negative index counts from the end. *)
Definition py_pos {A} (l : list A) (i : Z) : option nat :=
  let n := Z.of_nat (length l) in
  let j := if decide (i < 0)%Z then (i + n)%Z else i in
  if decide (0 ≤ j < n)%Z then Some (Z.to_nat j) else None.

Definition getitem {A} (l : list A) (i : Z) : outcome A :=
  match py_pos l i ≫= fun k => l !! k with
  | Some x => Ok x
  | None => Raise IndexError
  end.

(** [l[i] = x] *)
Definition setitem {A} (l : list A) (i : Z) (x : A) : outcome (list A) :=
  match py_pos l i with
  | Some k => Ok (<[k := x]> l)
  | None => Raise IndexError
  end.

(** [d[k]] for a dictionary *)
Definition dict_get {V} (d : gmap string V) (k : string) : outcome V :=
  match d !! k with
  | Some v => Ok v
  | None => Raise KeyError
  end.


(** [np.linalg.matrix_rank], a library function. *)
Class Rank := matrix_rank : np.matrix → nat.

(** ** [SEIR] *)

Module SEIR.

(** The methods the class body defines.  [check_controllability] sits inside
    a string literal and is not among them. *)
Inductive method : Type :=
| m_init
| m_build
| m_check_observability
| m_step.

(** The values an attribute can hold. *)
Inductive pyval : Type :=
| VNone
| VInt (z : Z)
| VFloat (q : Qc)
| VVec (v : list Qc)
| VMat (M : np.matrix)
| VMethod (m : method).

(** An instance: its attribute dictionary. *)
Abbreviation obj := (gmap string pyval).

Definition class_dict (name : string) : option method :=
  if decide (name = "__init__") then Some m_init
  else if decide (name = "_build") then Some m_build
  else if decide (name = "check_observability") then Some m_check_observability
  else if decide (name = "step") then Some m_step
  else None.

(** [self.name]: the instance dictionary, then the class. *)
Definition getattr (name : string) : prog obj pyval := fun self =>
  match self !! name with
  | Some v => (self, Ok v)
  | None =>
      match class_dict name with
      | Some m => (self, Ok (VMethod m))
      | None => (self, Raise AttributeError)
      end
  end.

(** [self.name = v] *)
Definition setattr (name : string) (v : pyval) : prog obj unit :=
  modify (fun self => <[name := v]> self).

(** A dimension handed to [np.zeros]. *)
Definition as_dim (v : pyval) : outcome nat :=
  match v with
  | VInt z => if decide (0 ≤ z)%Z then Ok (Z.to_nat z) else Raise ValueError
  | _ => Raise TypeError
  end.

(** A value used as a 2-d array. *)
Definition as_matrix (v : pyval) : outcome np.matrix :=
  match v with
  | VMat M => Ok M
  | _ => Raise TypeError
  end.

(** [v.shape[0]] *)
Definition shape0 (v : pyval) : outcome nat :=
  match v with
  | VMat M => Ok (np.nrows M)
  | VVec l => Ok (length l)
  | _ => Raise AttributeError
  end.

(** [v[:, inds]] and [v[inds, inds]]; [None] is not subscriptable. *)
Definition subscript (f : np.matrix → np.matrix) (v : pyval) : outcome np.matrix :=
  match v with
  | VMat M => Ok (f M)
  | _ => Raise TypeError
  end.

(** The first row of [belowEI] (lines 33-34). *)
Definition belowEI_of (r c : nat) (EI : np.matrix) : outcome np.matrix :=
  np.set_row0 (np.zeros r c) (np.one_minus (np.sum_axis0 EI)).

(** [belowIR] (line 35). *)
Definition belowIR_of (IR : np.matrix) : list Qc :=
  np.one_minus (np.sum_axis0 IR).

(** The [np.block] expression of lines 40-44. *)
Definition assemble (nEI nIR : nat) (EI belowEI IR : np.matrix)
    (belowIR : list Qc) : outcome np.matrix :=
  np.block
    [ [ [[1]];            [np.zeros1 nEI]; [np.zeros1 nIR];  [[0]]           ];
      [ np.zeros nEI 1;   EI;              np.zeros nEI nIR; np.zeros nEI 1  ];
      [ np.zeros nIR 1;   belowEI;         IR;               np.zeros nIR 1  ];
      [ [[0]];            np.zeros 1 nEI;  [belowIR];        [[1]]           ] ].

(** [B]: a column of zeros with [B[0] = -1] and [B[1] = 1] (lines 46-48). *)
Definition B_of (n : nat) : outcome np.matrix :=
  let B := np.zeros n 1 in
  if decide (n < 2)%nat then Raise IndexError
  else Ok (<[1%nat := [1]]> (<[0%nat := [-1]]> B)).

(** [C]: a row of zeros with [C[:, 1:-1] = 1] (lines 51-52). *)
Definition C_of (n : nat) : np.matrix :=
  [ [0] ++ replicate (n - 2) 1 ++ [0] ].

(** [SEIR._build] *)
Definition _build : prog obj unit :=
  a ← getattr "nIR";
  b ← getattr "nEI";
  r ← lift (as_dim a);
  c ← lift (as_dim b);
  EI ← getattr "EI" ≫= fun v => lift (as_matrix v);
  belowEI ← lift (belowEI_of r c EI);
  IR ← getattr "IR" ≫= fun v => lift (as_matrix v);
  let belowIR := belowIR_of IR in
  let nEI := np.nrows EI in
  nIR ← getattr "nIR" ≫= fun v => lift (shape0 v);
  A ← lift (assemble nEI nIR EI belowEI IR belowIR);
  setattr "A" (VMat A);;
  B ← lift (B_of (2 + nEI + nIR));
  setattr "B" (VMat B);;
  C ← getattr "C";
  match C with
  | VNone => mret tt
  | _ => setattr "C" (VMat (C_of (2 + nEI + nIR)))
  end.

(** The loop of [check_observability]: [k] times append the product of the
    last element with [A].  The first element is [C], an [np.matrix], and so
    is every product: [*] is the matrix product. *)
Fixpoint obs_loop (k : nat) (A : np.matrix) (Omats : list np.matrix)
  : outcome (list np.matrix) :=
  match k with
  | O => Ok Omats
  | S k' =>
      match last Omats with
      | Some P => Q ← np.matmul P A; obs_loop k' A (Omats ++ [Q])
      | None => Raise IndexError
      end
  end.

(** [range(1, v)] as its number of iterations. *)
Definition range_from_1 (v : pyval) : outcome nat :=
  match v with
  | VInt z => Ok (Z.to_nat (z - 1))
  | _ => Raise TypeError
  end.

(** [rank == v] *)
Definition rank_equals (rank : nat) (v : pyval) : bool :=
  match v with
  | VInt z => bool_decide (Z.of_nat rank = z)
  | VFloat q => bool_decide (Qc_of_Z (Z.of_nat rank) = q)
  | _ => false
  end.

(** [SEIR.check_observability], with [EIonly] as the caller leaves it. *)
Definition check_observability `{Rank} (EIonly : bool) : prog obj np.matrix :=
  let inds {A} (l : list A) : list A := if EIonly then np.inner l else l in
  A ← getattr "A" ≫= fun v => lift (subscript (fun M => inds <$> inds M) v);
  C ← getattr "C" ≫= fun v => lift (subscript (fun M => inds <$> M) v);
  n ← getattr "nEIR";
  k ← lift (range_from_1 n);
  Omats ← lift (obs_loop k A [C]);
  obs_mat ← lift (np.vstack Omats);
  n' ← getattr "nEIR";
  if rank_equals (matrix_rank obs_mat) n' then mret obs_mat
  else raise AssertionError.

(** [SEIR.step]: [pass] *)
Definition step : prog obj unit := mret tt.

(** [self.name()] for the methods without arguments. *)
Definition call `{Rank} (name : string) : prog obj unit :=
  f ← getattr name;
  match f with
  | VMethod m_build => _build
  | VMethod m_check_observability => check_observability true ;; mret tt
  | VMethod m_step => step
  | _ => raise TypeError
  end.

(** [SEIR.__init__] *)
Definition __init__ `{Rank} (nSteps dt EI IR C : pyval) : prog obj unit :=
  setattr "nSteps" nSteps;;
  setattr "dt" dt;;
  setattr "EI" EI;;
  setattr "IR" IR;;
  setattr "C" C;;
  call "_build";;
  call "check_controllability";;
  call "check_observability";;
  A ← getattr "A" ≫= fun v => lift (as_matrix v);
  n ← getattr "nSteps" ≫= fun v => lift (as_dim v);
  setattr "X" (VMat (np.zeros (np.nrows A) n)).

(** [SEIR(nSteps, dt, EI, IR, C)]: a fresh instance run through [__init__];
    the caller gets the instance only if [__init__] returns. *)
Definition new `{Rank} (nSteps dt EI IR C : pyval) : outcome obj :=
  match __init__ nSteps dt EI IR C ∅ with
  | (self, Ok _) => Ok self
  | (_, Raise e) => Raise e
  end.

End SEIR.

(** ** [controller_intervention] *)

(** The estimator [Kalman] and the feedback [Controller] live in modules of
    their own; the intervention sees them through these operations. *)
Class Estimator (K : Type) := {
  kf : Qc → SEIR.obj → K;
  update : K → Qc → Qc → Qc → K;
  Ihat : K → list Qc;
  EIhat : K → list Qc
}.

Class Feedback (Ct : Type) := {
  ct : SEIR.obj → option Qc → Ct;
  get_control : Ct → list Qc → Qc
}.

(** [np.power], a library function. *)
Class Power := power : Qc → Qc → Qc.

Module controller_intervention.

(** What a run of [apply] lets an observer see. *)
Inductive message : Type :=
| MsgDay (t : Z)
| MsgNewExposures (x : Qc)
| MsgShrinkingBeta
| MsgNegativeEstimate (xi : Qc)
| MsgAsking (u : Qc)
| MsgNewError (y n_exp target err int_err : Qc).

Inductive event : Type :=
| Print (m : message)
| KalmanUpdate (E I u : Qc)
| GetControl (Xu : list Qc).

(** The part of the host simulation the intervention reads and writes. *)
Record sim : Type := {
  t : Z;
  results_n_exposed : list Qc;
  results_new_infections : list Qc;
  scaled_pop_size : Qc;
  people_date_exposed : list (option Qc);   (* [None] is [nan] *)
  people_infectious : list bool;
  people_exposed : list bool;
  pars_beta : Qc;
  pars_beta_layer : gmap string Qc;
  pars_n_days : Z
}.

(** The intervention's own attributes.  [beta0], [beta_layer0] and [Kalman]
    are created by [initialize] and absent ([None]) before it ran; [u_k] is
    Python's [None] until then. *)
Record self (K Ct : Type) : Type := {
  verbose : bool;
  targets : gmap string Qc;
  the_SEIR : SEIR.obj;
  u_k : option (list Qc);
  start_day : Z;
  Controller : Ct;
  integrated_err : Qc;
  beta0 : option Qc;
  beta_layer0 : option (gmap string Qc);
  Kalman : option K
}.

Arguments verbose {K Ct} _.
Arguments targets {K Ct} _.
Arguments the_SEIR {K Ct} _.
Arguments u_k {K Ct} _.
Arguments start_day {K Ct} _.
Arguments Controller {K Ct} _.
Arguments integrated_err {K Ct} _.
Arguments beta0 {K Ct} _.
Arguments beta_layer0 {K Ct} _.
Arguments Kalman {K Ct} _.

(** The store a call of [apply(sim)] works on, with the log of what it did. *)
Record store (K Ct : Type) : Type := {
  host : sim;
  me : self K Ct;
  log : list event
}.

Arguments host {K Ct} _.
Arguments me {K Ct} _.
Arguments log {K Ct} _.

(** The layers the loop of [apply] names. *)
Definition layer_keys : list string := ["h"; "s"; "w"; "c"; "l"].

(** The literal divisor of line 109. *)
Definition shrink : Qc := num 18.

(** Record updates: the store with one field replaced. *)
Definition with_beta_layer (s : sim) (bl : gmap string Qc) : sim :=
  {| t := t s;
     results_n_exposed := results_n_exposed s;
     results_new_infections := results_new_infections s;
     scaled_pop_size := scaled_pop_size s;
     people_date_exposed := people_date_exposed s;
     people_infectious := people_infectious s;
     people_exposed := people_exposed s;
     pars_beta := pars_beta s;
     pars_beta_layer := bl;
     pars_n_days := pars_n_days s |}.

Definition with_Kalman {K Ct} (m : self K Ct) (k : K) : self K Ct :=
  {| verbose := verbose m;
     targets := targets m;
     the_SEIR := the_SEIR m;
     u_k := u_k m;
     start_day := start_day m;
     Controller := Controller m;
     integrated_err := integrated_err m;
     beta0 := beta0 m;
     beta_layer0 := beta_layer0 m;
     Kalman := Some k |}.

Definition with_u_k {K Ct} (m : self K Ct) (l : list Qc) : self K Ct :=
  {| verbose := verbose m;
     targets := targets m;
     the_SEIR := the_SEIR m;
     u_k := Some l;
     start_day := start_day m;
     Controller := Controller m;
     integrated_err := integrated_err m;
     beta0 := beta0 m;
     beta_layer0 := beta_layer0 m;
     Kalman := Kalman m |}.

Definition with_integrated_err {K Ct} (m : self K Ct) (x : Qc) : self K Ct :=
  {| verbose := verbose m;
     targets := targets m;
     the_SEIR := the_SEIR m;
     u_k := u_k m;
     start_day := start_day m;
     Controller := Controller m;
     integrated_err := x;
     beta0 := beta0 m;
     beta_layer0 := beta_layer0 m;
     Kalman := Kalman m |}.

Section Intervention.
Context {K Ct : Type} `{Estimator K} `{Feedback Ct} `{Power}.

Definition emit (e : event) : prog (store K Ct) unit :=
  modify (fun σ => {| host := host σ; me := me σ; log := log σ ++ [e] |}).

Definition print (m : message) : prog (store K Ct) unit := emit (Print m).

Definition set_host (f : sim → sim) : prog (store K Ct) unit :=
  modify (fun σ => {| host := f (host σ); me := me σ; log := log σ |}).

Definition set_me (f : self K Ct → self K Ct) : prog (store K Ct) unit :=
  modify (fun σ => {| host := host σ; me := f (me σ); log := log σ |}).

(** An attribute that [initialize] creates. *)
Definition attr {A} (f : self K Ct → option A) : prog (store K Ct) A :=
  σ ← get;
  match f (me σ) with
  | Some a => mret a
  | None => raise AttributeError
  end.

(** [self.u_k], which [__init__] sets to [None]; [None] takes no index. *)
Definition the_u_k : prog (store K Ct) (list Qc) :=
  σ ← get;
  match u_k (me σ) with
  | Some l => mret l
  | None => raise TypeError
  end.

(** [self.SEIR.Ipow] *)
Definition Ipow : prog (store K Ct) Qc :=
  σ ← get;
  match SEIR.getattr "Ipow" (the_SEIR (me σ)) with
  | (_, Ok (SEIR.VFloat p)) => mret p
  | (_, Ok (SEIR.VInt z)) => mret (num z)
  | (_, Ok _) => raise TypeError
  | (_, Raise e) => raise e
  end.

(** [controller_intervention.__init__] *)
Definition __init__ (S : SEIR.obj) (tgts : gmap string Qc)
    (pole_loc : option Qc) (start : Z) : self K Ct :=
  {| verbose := false;
     targets := tgts;
     the_SEIR := S;
     u_k := None;
     start_day := start;
     Controller := ct S pole_loc;
     integrated_err := 0;
     beta0 := None;
     beta_layer0 := None;
     Kalman := None |}.

Definition count_true (l : list bool) : Qc :=
  num (Z.of_nat (length (filter (fun b => b = true) l))).

(** [self.Kalman.update(E, I, u)] *)
Definition Kalman_update (E I u : Qc) : prog (store K Ct) unit :=
  k ← attr Kalman;
  emit (KalmanUpdate E I u);;
  set_me (fun m => with_Kalman m (update k E I u)).

(** [self.Controller.get_control(Xu)] *)
Definition Controller_get_control (Xu : list Qc) : prog (store K Ct) Qc :=
  σ ← get;
  emit (GetControl Xu);;
  mret (get_control (Controller (me σ)) Xu).

(** [sim.pars['beta_layer'][lkey] = v] *)
Definition set_beta_layer (lkey : string) (v : Qc) : prog (store K Ct) unit :=
  set_host (fun s => with_beta_layer s (<[lkey := v]> (pars_beta_layer s))).

(** [self.u_k = l] (the array is updated in place) *)
Definition set_u_k (l : list Qc) : prog (store K Ct) unit :=
  set_me (fun m => with_u_k m l).

(** [self.integrated_err = x] *)
Definition set_integrated_err (x : Qc) : prog (store K Ct) unit :=
  set_me (fun m => with_integrated_err m x).

(** [controller_intervention.initialize]: the four assignments in their
    order; [np.ones] refuses a negative length with a [ValueError], after
    [beta0] and [beta_layer0] have been assigned. *)
Definition initialize : prog (store K Ct) unit :=
  σ ← get;
  let s := host σ in
  set_me (fun m =>
    {| verbose := verbose m;
       targets := targets m;
       the_SEIR := the_SEIR m;
       u_k := u_k m;
       start_day := start_day m;
       Controller := Controller m;
       integrated_err := integrated_err m;
       beta0 := Some (pars_beta s);
       beta_layer0 := beta_layer0 m;
       Kalman := Kalman m |});;
  set_me (fun m =>
    {| verbose := verbose m;
       targets := targets m;
       the_SEIR := the_SEIR m;
       u_k := u_k m;
       start_day := start_day m;
       Controller := Controller m;
       integrated_err := integrated_err m;
       beta0 := beta0 m;
       beta_layer0 := Some (pars_beta_layer s);
       Kalman := Kalman m |});;
  n ← (if decide (0 ≤ pars_n_days s + 1)%Z then mret (Z.to_nat (pars_n_days s + 1))
       else raise ValueError);
  set_u_k (replicate n (pars_beta s));;
  let initial_exposed_pop := count_true (people_exposed s) in
  set_me (fun m => with_Kalman m (kf initial_exposed_pop (the_SEIR m))).

(** [N - np.count_nonzero(~np.isnan(sim.people.date_exposed))] *)
Definition susceptible (s : sim) : Qc :=
  scaled_pop_size s
  - num (Z.of_nat (length (filter is_Some (people_date_exposed s)))).

(** [np.sum(sim.people.infectious)] *)
Definition infectious (s : sim) : Qc := count_true (people_infectious s).

(** The test of line 66: warm-up, or nobody susceptible or infectious. *)
Definition open_loop (σ : store K Ct) : bool :=
  bool_decide (t (host σ) < start_day (me σ))%Z
  || bool_decide (susceptible (host σ) * infectious (host σ) = 0).

(** [np.sum(Ihat)] plus [np.sum(Ihat[:3])] (lines 100-101). *)
Definition early_weighted (Ih : list Qc) : Qc :=
  np.sum Ih + np.sum (take 3 Ih).

(** Lines 103-112: the rate requested for the day. *)
Definition new_rate (u xs N xi : Qc) : prog (store K Ct) Qc :=
  σ ← get;
  if decide (0 < xi) then
    p ← Ipow;
    let xi := power xi p in
    SI_by_N ← lift (divide (xs * xi) N);
    q ← lift (divide u SI_by_N);
    let new_beta := maximum q 0 in
    when (verbose (me σ)) (print MsgShrinkingBeta);;
    lift (divide new_beta shrink)
  else
    print (MsgNegativeEstimate xi);;
    attr beta0.

(** Line 120, the body of the loop over the layers:
    [sim.pars['beta_layer'][lkey] = self.beta_layer0[lkey] * new_beta / self.beta0],
    the product first and the quotient second. *)
Definition scale_layer (new_beta : Qc) (lkey : string) : prog (store K Ct) unit :=
  bl0 ← attr beta_layer0;
  b ← lift (dict_get bl0 lkey);
  b0 ← attr beta0;
  v ← lift (divide (b * new_beta) b0);
  set_beta_layer lkey v.

(** Lines 96-128 of [apply]: from the control signal [u] and the day's
    exposed count [y] to the rates of the layers, [u_k] and the integral
    error. *)
Definition actuate (u y : Qc) : prog (store K Ct) unit :=
  σ ← get;
  let s := host σ in
  let xs := susceptible s in
  k ← attr Kalman;
  let xi := early_weighted (Ihat k) in
  new_beta ← new_rate u xs (scaled_pop_size s) xi;
  for_each layer_keys (scale_layer new_beta);;
  uk ← the_u_k;
  uk' ← lift (setitem uk (t s) new_beta);
  set_u_k uk';;
  when (verbose (me σ))
    (print (MsgAsking u);;
     n_exp ← lift (getitem (results_n_exposed s) (t s - 1));
     tg ← lift (dict_get (targets (me σ)) "infected");
     print (MsgNewError y n_exp tg (y - tg) (integrated_err (me σ))));;
  tg ← lift (dict_get (targets (me σ)) "infected");
  set_integrated_err (integrated_err (me σ) + y - tg).

(** [controller_intervention.apply] *)
Definition apply : prog (store K Ct) unit :=
  σ ← get;
  let s := host σ in
  when (verbose (me σ)) (print (MsgDay (t s)));;
  y ← lift (getitem (results_n_exposed s) (t s - 1));
  let I := infectious s in
  let E := y - I in
  when (verbose (me σ))
    (x ← lift (getitem (results_new_infections s) (t s - 1));
     print (MsgNewExposures x));;
  if open_loop σ then
    u ← lift (getitem (results_new_infections s) (t s - 1));
    Kalman_update E I u
  else
    k ← attr Kalman;
    let Xu := EIhat k ++ [integrated_err (me σ)] in
    u ← Controller_get_control Xu;
    let u := maximum u 0 in
    Kalman_update E I u;;
    actuate u y.

End Intervention.

End controller_intervention.

(** ** The rate of a layer in binary64 *)

Module Binary64.
Import PrimFloat.



End Binary64.

(** ** Observability *)

(** [C · A^i] *)
Fixpoint times_power (C A : np.matrix) (i : nat) : np.matrix :=
  match i with
  | O => C
  | S i' => np.product (times_power C A i') A
  end.

(** The stacked observability matrix [[C; C·A; ...; C·A^(n-1)]]. *)
Definition observability_matrix (C A : np.matrix) (n : nat) : np.matrix :=
  concat (times_power C A <$> seq 0 n).

(** The exact rank of a matrix of rationals, by elimination: pick a row that
    starts with a nonzero entry, clear the first column of the other rows
    with it and go on with the remaining columns. *)
Definition starts_nonzero (r : list Qc) : bool :=
  match r with
  | x :: _ => bool_decide (x ≠ 0)
  | [] => false
  end.

Fixpoint split_pivot (rows : np.matrix) : option (list Qc * np.matrix) :=
  match rows with
  | [] => None
  | r :: rows' =>
      if starts_nonzero r then Some (r, rows')
      else (fun pr => (pr.1, r :: pr.2)) <$> split_pivot rows'
  end.

Definition eliminate (p r : list Qc) : list Qc :=
  match p, r with
  | ph :: pt, rh :: rt => zip_with (fun x y => y - rh / ph * x) pt rt
  | _, _ => []
  end.

Fixpoint gauss_rank_go (c : nat) (rows : np.matrix) : nat :=
  match c with
  | O => O
  | S c' =>
      match split_pivot rows with
      | Some (p, rest) => S (gauss_rank_go c' (eliminate p <$> rest))
      | None => gauss_rank_go c' (tail <$> rows)
      end
  end.

Definition gauss_rank : Rank := fun M => gauss_rank_go (np.ncols M) M.

(** ** Reading the log *)

Section Log.
Import controller_intervention.

Definition is_print (e : event) : bool :=
  match e with
  | Print _ => true
  | _ => false
  end.




(** What a run from [σ] to [σ'] has added to the log. *)
Definition emitted {K Ct} (σ σ' : store K Ct) : list event :=
  drop (length (log σ)) (log σ').

(** A program that touches the log only by printing. *)
Definition prints_only {K Ct A} (c : prog (store K Ct) A) : Prop :=
  ∀ σ, ∃ ps, log (c σ).1 = log σ ++ ps ∧ Forall (fun e => is_print e = true) ps.

(** The stores that differ from [σ] in the estimator and the log at most. *)
Definition same_but_estimator {K Ct} (σ σ' : store K Ct) : Prop :=
  host σ' = host σ
  ∧ verbose (me σ') = verbose (me σ)
  ∧ targets (me σ') = targets (me σ)
  ∧ the_SEIR (me σ') = the_SEIR (me σ)
  ∧ u_k (me σ') = u_k (me σ)
  ∧ start_day (me σ') = start_day (me σ)
  ∧ Controller (me σ') = Controller (me σ)
  ∧ integrated_err (me σ') = integrated_err (me σ)
  ∧ beta0 (me σ') = beta0 (me σ)
  ∧ beta_layer0 (me σ') = beta_layer0 (me σ).

(** The rate that lines 103-112 request, as a number: the control signal
    over [xs · xi^p / N], clamped at zero and shrunk, or the baseline [b0]
    when [xi] is not positive. *)
Definition requested_rate `{Power} (u xs N xi p b0 : Qc) : Qc :=
  if decide (0 < xi)
  then maximum (u / (xs * power xi p / N)) 0 / shrink
  else b0.

(** The intervention after [initialize], on a day of the run: the attributes
    exist, the baseline rate is not zero, the five layers and the target are
    there, and the day has its slots in the result arrays and in [u_k]. *)
Record ready {K Ct} (σ : store K Ct) (k : K) (uk : list Qc) (b0 : Qc)
    (bl0 : gmap string Qc) (tg p y : Qc) (slot : nat) : Prop := {
  ready_Kalman : Kalman (me σ) = Some k;
  ready_u_k : u_k (me σ) = Some uk;
  ready_beta0 : beta0 (me σ) = Some b0;
  ready_beta_layer0 : beta_layer0 (me σ) = Some bl0;
  ready_target : targets (me σ) !! "infected" = Some tg;
  ready_Ipow : the_SEIR (me σ) !! "Ipow" = Some (SEIR.VFloat p);
  ready_baseline : b0 ≠ 0;
  ready_population : scaled_pop_size (host σ) ≠ 0;
  ready_layers : ∀ key, key ∈ layer_keys → is_Some (bl0 !! key);
  ready_exposed :
    getitem (results_n_exposed (host σ)) (t (host σ) - 1) = Ok y;
  ready_new_infections :
    is_Some (py_pos (results_new_infections (host σ)) (t (host σ) - 1));
  ready_slot : py_pos uk (t (host σ)) = Some slot
}.

End Log.

(** ** A small estimator, controller and host for examples *)

Module Toy.

(** An estimator with one exposed and one infectious stage that moves half
    way from its estimate to the observation. *)
Definition filter_state : Type := Qc * Qc.

#[global] Instance averaging : Estimator filter_state := {|
  kf := fun e0 _ => (e0, 0);
  update := fun k E I u => ((k.1 + u + E) / 2, (k.2 + I) / 2);
  Ihat := fun k => [k.2];
  EIhat := fun k => [k.1; k.2]
|}.

(** State feedback [u = -K·Xu] with a fixed gain row. *)
Definition gain : Type := list Qc.

#[global] Instance state_feedback : Feedback gain := {|
  ct := fun _ pole => [default 0 pole; 0; 0];
  get_control := fun K Xu => - np.dot K Xu
|}.

(** Powers with a natural number as exponent. *)
Definition natural_power : Power :=
  fun x p => Qcpower x (Z.to_nat (Qnum p)).

Import controller_intervention.

Definition layers : gmap string Qc :=
  <["h" := num 3]> (<["s" := num 3 / num 5]> (<["w" := num 3 / num 5]>
    (<["c" := num 3 / num 10]> (<["l" := num 3 / 2]> ∅)))).

(** Day [day] of an eleven-day run: population 100, three people exposed so
    far, two of them infectious. *)
Definition host_on (day : Z) : sim := {|
  t := day;
  results_n_exposed := replicate 11 (num 3);
  results_new_infections := replicate 11 1;
  scaled_pop_size := num 100;
  people_date_exposed := [Some 1; None; Some 2; Some 2; None];
  people_infectious := [true; false; true; false; false];
  people_exposed := [true; false; true; true; false];
  pars_beta := 1 / num 50;
  pars_beta_layer := layers;
  pars_n_days := 10
|}.

(** The intervention after [initialize] on a host with the layers [bl],
    active from day 5 on, with the estimate [k] and the gain row [K]. *)
Definition intervention (bl : gmap string Qc) (k : filter_state) (K : gain)
  : self filter_state gain := {|
  verbose := false;
  targets := {[ "infected" := 2 ]};
  the_SEIR := {[ "Ipow" := SEIR.VFloat 1 ]};
  u_k := Some (replicate 11 (1 / num 50));
  start_day := 5;
  Controller := K;
  integrated_err := 0;
  beta0 := Some (1 / num 50);
  beta_layer0 := Some bl;
  Kalman := Some k
|}.

Definition store_on (day : Z) (k : filter_state) (K : gain)
  : store filter_state gain :=
  {| host := host_on day; me := intervention layers k K; log := [] |}.

(** Day 3 is warm-up. *)
Definition warm_up := store_on 3 (num 3, 2) [- 1; 0; 0].

(** Day 6 with a positive estimate of the infectious and a controller that
    asks for new exposures. *)
Definition closed := store_on 6 (num 3, 2) [- 1; 0; 0].






End Toy.

(** ** Sample data *)

Module Sample.

(** A two-stage lower-triangular transition matrix. *)
Definition L2 : np.matrix := [ [1 / 2; 0]; [1 / num 3; 1 / 2] ].

(** Two values: not the lower triangle of any square matrix. *)
Definition two_values : list Qc := [1 / 2; 1 / num 3].

(** One exposed and one infectious stage, each left with probability 1/2. *)
Definition EI1 : np.matrix := [ [1 / 2] ].
Definition IR1 : np.matrix := [ [1 / 2] ].

(** The state-transition matrix that belongs to [EI1] and [IR1]. *)
Definition A1 : np.matrix :=
  [ [1; 0;     0;     0];
    [0; 1 / 2; 0;     0];
    [0; 1 / 2; 1 / 2; 0];
    [0; 0;     1 / 2; 1] ].

(** Two exposed stages with the same dynamics: both keep half of their mass
    and pass the other half to the one infectious stage. *)
Definition EI_twin : np.matrix := [ [1 / 2; 0]; [0; 1 / 2] ].

Definition A_twin : np.matrix :=
  [ [1; 0;     0;     0;     0];
    [0; 1 / 2; 0;     0;     0];
    [0; 0;     1 / 2; 0;     0];
    [0; 1 / 2; 1 / 2; 1 / 2; 0];
    [0; 0;     0;     1 / 2; 1] ].

(** An instance as [_build] is meant to leave it, with the stage count in
    [nEIR]. *)
Definition model (A : np.matrix) (n : nat) : SEIR.obj :=
  <["A" := SEIR.VMat A]>
    (<["C" := SEIR.VMat (SEIR.C_of (n + 2))]>
       (<["nEIR" := SEIR.VInt (Z.of_nat n)]> ∅)).

End Sample.

(** ** What a call of [apply] leaves alone *)

Section Frame.
Import controller_intervention.

(** The stores that a run from [σ] may reach if it writes nothing but the
    rates of the five named layers, the estimator, the entries of [u_k], the
    integral error and the log. *)
Definition writes_within {K Ct} (σ σ' : store K Ct) : Prop :=
  t (host σ') = t (host σ)
  ∧ results_n_exposed (host σ') = results_n_exposed (host σ)
  ∧ results_new_infections (host σ') = results_new_infections (host σ)
  ∧ scaled_pop_size (host σ') = scaled_pop_size (host σ)
  ∧ people_date_exposed (host σ') = people_date_exposed (host σ)
  ∧ people_infectious (host σ') = people_infectious (host σ)
  ∧ people_exposed (host σ') = people_exposed (host σ)
  ∧ pars_beta (host σ') = pars_beta (host σ)
  ∧ pars_n_days (host σ') = pars_n_days (host σ)
  ∧ (∀ key, key ∉ layer_keys →
       pars_beta_layer (host σ') !! key = pars_beta_layer (host σ) !! key)
  ∧ verbose (me σ') = verbose (me σ)
  ∧ targets (me σ') = targets (me σ)
  ∧ the_SEIR (me σ') = the_SEIR (me σ)
  ∧ start_day (me σ') = start_day (me σ)
  ∧ Controller (me σ') = Controller (me σ)
  ∧ beta0 (me σ') = beta0 (me σ)
  ∧ beta_layer0 (me σ') = beta_layer0 (me σ)
  ∧ length <$> u_k (me σ') = length <$> u_k (me σ)
  ∧ ∃ evs, log σ' = log σ ++ evs.

(** A program that stays within these writes from every store, whether it
    returns or raises. *)
Definition stays_within {K Ct A} (c : prog (store K Ct) A) : Prop :=
  ∀ σ, writes_within σ (c σ).1.

(** What [apply] prints at its start when [verbose] is set. *)
Definition day_header {K Ct} (σ : store K Ct) (x : Qc) : list event :=
  if verbose (me σ)
  then [Print (MsgDay (t (host σ))); Print (MsgNewExposures x)]
  else [].

(** What the computation of the rate prints: the warning of line 111
    whenever the estimate is not positive, the line about shrinking when
    [verbose] is set. *)
Definition rate_lines {K Ct} (σ : store K Ct) (xi : Qc) : list event :=
  if decide (0 < xi)
  then (if verbose (me σ) then [Print MsgShrinkingBeta] else [])
  else [Print (MsgNegativeEstimate xi)].

(** What [apply] prints at its end when [verbose] is set; the integral error
    shown is the one from before the day's update. *)
Definition closing_lines {K Ct} (σ : store K Ct) (u y tg : Qc) : list event :=
  if verbose (me σ)
  then [Print (MsgAsking u);
        Print (MsgNewError y y tg (y - tg) (integrated_err (me σ)))]
  else [].

End Frame.

(** ** Further sample stores *)

Module More.
Import controller_intervention.

(** The layers of a host without long-term care facilities. *)
Definition four_layers : gmap string Qc := delete "l" Toy.layers.

(** Day 6 on that host. *)
Definition hybrid : store Toy.filter_state Toy.gain :=
  {| host := with_beta_layer (Toy.host_on 6) four_layers;
     me := Toy.intervention four_layers (num 3, 2) [- 1; 0; 0];
     log := [] |}.

(** Day 6 of an intervention whose targets lack the key [infected]. *)
Definition without_target : store Toy.filter_state Toy.gain :=
  {| host := Toy.host_on 6;
     me := {| verbose := false;
              targets := {[ "prevalence" := 2 ]};
              the_SEIR := {[ "Ipow" := SEIR.VFloat 1 ]};
              u_k := Some (replicate 11 (1 / num 50));
              start_day := 5;
              Controller := [- 1; 0; 0];
              integrated_err := 0;
              beta0 := Some (1 / num 50);
              beta_layer0 := Some Toy.layers;
              Kalman := Some (num 3, 2) |};
     log := [] |}.

(** An intervention as its constructor leaves it, on day [day] of the
    sample host. *)
Definition constructed (day : Z) : store Toy.filter_state Toy.gain :=
  {| host := Toy.host_on day;
     me := __init__ {[ "Ipow" := SEIR.VFloat 1 ]} {[ "infected" := 2 ]} None 5;
     log := [] |}.

(** Day 0 of a four-day run whose result arrays end in entries of their
    own. *)
Definition day_zero : store Toy.filter_state Toy.gain :=
  {| host := {| t := 0;
                results_n_exposed := [num 3; 2; 1; num 7];
                results_new_infections := [1; 1; 1; num 5];
                scaled_pop_size := num 100;
                people_date_exposed := [Some 1; None; Some 2; Some 2; None];
                people_infectious := [true; false; true; false; false];
                people_exposed := [true; false; true; true; false];
                pars_beta := 1 / num 50;
                pars_beta_layer := Toy.layers;
                pars_n_days := 3 |};
     me := Toy.intervention Toy.layers (num 3, 2) [- 1; 0; 0];
     log := [] |}.

(** Day 6 of the sample host with layers that an earlier day has already
    changed. *)
Definition second_day : store Toy.filter_state Toy.gain :=
  {| host := with_beta_layer (Toy.host_on 6) (<["h" := num 7]> Toy.layers);
     me := Toy.intervention Toy.layers (num 3, 2) [- 1; 0; 0];
     log := [] |}.

End More.


(** * Properties *)

(** ** Lists and indices *)

Lemma tri_double n : (2 * tri n = n * (n + 1))%nat.
Proof. induction n as [|n IH]; simpl; lia. Qed.

Lemma order_tri n : TransitionMatrix.order (tri n) = n.
Proof.
  unfold TransitionMatrix.order.
  replace (1 + 8 * tri n)%nat with ((2 * n + 1) * (2 * n + 1))%nat
    by (pose proof (tri_double n); nia).
  rewrite Nat.sqrt_square.
  replace (2 * n + 1 - 1)%nat with (n * 2)%nat by lia.
  apply Nat.div_mul. lia.
Qed.

(** [order k] is the largest [n] whose triangle fits into [k] values. *)
Lemma order_spec k :
  (tri (TransitionMatrix.order k) ≤ k < tri (S (TransitionMatrix.order k)))%nat.
Proof.
  unfold TransitionMatrix.order.
  pose proof (Nat.sqrt_spec (1 + 8 * k) ltac:(lia)) as [Hlo Hhi].
  set (s := Nat.sqrt (1 + 8 * k)) in *.
  assert (Hs : (1 ≤ s)%nat) by (destruct s; simpl in *; lia).
  pose proof (Nat.div_mod_eq (s - 1) 2) as Hd.
  pose proof (Nat.mod_upper_bound (s - 1) 2 ltac:(lia)) as Hm.
  set (n := ((s - 1) / 2)%nat) in *.
  pose proof (tri_double n) as Hn.
  pose proof (tri_double (S n)) as HSn.
  split; nia.
Qed.

Lemma length_tril_pairs n : length (np.tril_pairs n) = tri n.
Proof.
  unfold np.tril_pairs. induction n as [|n IH]; [done|].
  rewrite seq_S, bind_app, length_app, IH. simpl.
  rewrite app_nil_r, length_fmap. simpl. rewrite length_seq. lia.
Qed.

Lemma elem_of_tril_pairs n i j :
  (i, j) ∈ np.tril_pairs n ↔ (j ≤ i < n)%nat.
Proof.
  unfold np.tril_pairs. rewrite list_elem_of_bind. split.
  - intros (k & Hin & Hk). apply elem_of_seq in Hk.
    apply list_elem_of_fmap in Hin as (j' & Heq & Hj').
    apply elem_of_seq in Hj'. simplify_eq. lia.
  - intros Hij. exists i. split.
    + apply list_elem_of_fmap. exists j. split; [done|]. apply elem_of_seq. lia.
    + apply elem_of_seq. lia.
Qed.

Lemma ravel_multi_index_go_pairs (ps : list (nat * nat)) r c :
  Forall (fun p => (p.1 < r ∧ p.2 < c)%nat) ps →
  np.ravel_multi_index_go (fst <$> ps) (snd <$> ps) r c
  = Ok ((fun p => (p.1 * c + p.2)%nat) <$> ps).
Proof.
  induction 1 as [|p ps Hp _ IH]; [done|].
  rewrite !fmap_cons. cbn [np.ravel_multi_index_go].
  rewrite decide_True by done. rewrite IH. done.
Qed.

Lemma put_from_pairs {P} (f : P → nat) (g : P → Qc) (ps1 ps2 : list P) a :
  Forall (fun p => (f p < length a)%nat) ps2 →
  np.put_from (length ps1) (f <$> ps2) (g <$> (ps1 ++ ps2)) a
  = Ok (foldl (fun a p => <[f p := g p]> a) a ps2).
Proof.
  revert ps1 a. induction ps2 as [|p ps2 IH]; intros ps1 a Hf; [done|].
  apply Forall_cons in Hf as [Hp Hf]. simpl.
  rewrite decide_True by done.
  rewrite length_fmap, length_app, length_cons.
  rewrite Nat.mod_small by lia.
  rewrite list_lookup_fmap, lookup_app_r by lia.
  rewrite Nat.sub_diag. simpl.
  replace (ps1 ++ p :: ps2) with ((ps1 ++ [p]) ++ ps2) by (by rewrite <- app_assoc).
  replace (S (length ps1)) with (length (ps1 ++ [p]))
    by (rewrite length_app; simpl; lia).
  apply IH. eapply Forall_impl; [exact Hf|].
  intros q Hq. simpl in Hq. by rewrite length_insert.
Qed.

Lemma length_foldl_insert {P} (f : P → nat) (g : P → Qc) ps (a : list Qc) :
  length (foldl (fun a p => <[f p := g p]> a) a ps) = length a.
Proof.
  revert a. induction ps as [|p ps IH]; intros a; [done|].
  simpl. rewrite IH. apply length_insert.
Qed.

Lemma foldl_insert_miss {P} (f : P → nat) (g : P → Qc) ps (a : list Qc) q :
  (∀ p, p ∈ ps → f p ≠ q) →
  foldl (fun a p => <[f p := g p]> a) a ps !! q = a !! q.
Proof.
  revert a. induction ps as [|p ps IH]; intros a Hq; [done|].
  simpl. rewrite IH.
  - apply list_lookup_insert_ne. apply Hq. left.
  - intros p' Hp'. apply Hq. by right.
Qed.

Lemma foldl_insert_hit {P} `{EqDecision P} (f : P → nat) (g : P → Qc) ps
    (a : list Qc) p :
  (∀ p1 p2, p1 ∈ ps → p2 ∈ ps → f p1 = f p2 → p1 = p2) →
  (∀ p', p' ∈ ps → (f p' < length a)%nat) →
  p ∈ ps →
  foldl (fun a p => <[f p := g p]> a) a ps !! f p = Some (g p).
Proof.
  revert a. induction ps as [|p0 ps IH]; intros a Hinj Hlt Hin.
  { by apply elem_of_nil in Hin. }
  simpl. destruct (decide (p ∈ ps)) as [Hps|Hps].
  - apply IH; [| |done].
    + intros p1 p2 H1 H2. apply Hinj; by right.
    + intros p' Hp'. rewrite length_insert. apply Hlt. by right.
  - apply elem_of_cons in Hin as [->|?]; [|done].
    rewrite foldl_insert_miss.
    + apply list_lookup_insert_eq. apply Hlt. left.
    + intros p' Hp' Heq. apply Hps.
      rewrite <- (Hinj p' p0); [done|by right|left|done].
Qed.

Lemma imap_as_seq {A B} (f : nat → list A → B) (L : list (list A)) :
  imap f L = (fun i => f i (default [] (L !! i))) <$> seq 0 (length L).
Proof.
  apply list_eq. intros i.
  rewrite list_lookup_imap, list_lookup_fmap.
  destruct (L !! i) as [row|] eqn:Hi; simpl.
  - rewrite lookup_seq_lt by (by eapply lookup_lt_Some). simpl. by rewrite Hi.
  - rewrite lookup_seq_ge by (by apply lookup_ge_None). done.
Qed.

Lemma concat_fmap_bind {A B C} (F : A → list C) (G : A → list B) (g : B → C) l :
  Forall (fun i => F i = g <$> G i) l →
  concat (F <$> l) = g <$> (l ≫= G).
Proof.
  induction 1 as [|i l Hi _ IH]; [done|].
  rewrite fmap_cons, bind_cons, fmap_app. simpl. by rewrite Hi, IH.
Qed.

Lemma is_matrix_row r c M i row :
  is_matrix r c M → M !! i = Some row → length row = c.
Proof.
  intros [_ Hrows] Hi. by eapply (Forall_lookup_1 _ _ _ _ Hrows Hi).
Qed.

Lemma entry_is_Some r c M i j :
  is_matrix r c M → (i < r)%nat → (j < c)%nat → is_Some (entry M i j).
Proof.
  intros HM Hi Hj. unfold entry.
  destruct (lookup_lt_is_Some_2 M i) as [row Hrow]; [destruct HM; lia|].
  rewrite Hrow. simpl. apply lookup_lt_is_Some_2.
  by rewrite (is_matrix_row _ _ _ _ _ HM Hrow).
Qed.

(** The flattening reads the matrix at the index pairs [np.tril_indices]
    lists: it is [L[np.tril_indices(n)]]. *)
Lemma tril_flatten_pairs n L :
  is_matrix n n L →
  TransitionMatrix.tril_flatten L
  = (fun p => default 0 (entry L p.1 p.2)) <$> np.tril_pairs n.
Proof.
  intros HM. unfold TransitionMatrix.tril_flatten, np.tril_pairs.
  rewrite imap_as_seq. destruct HM as [Hlen Hrows]. rewrite Hlen.
  apply concat_fmap_bind. apply Forall_forall. intros i Hi.
  apply elem_of_seq in Hi.
  destruct (lookup_lt_is_Some_2 L i) as [row Hrow]; [lia|].
  rewrite Hrow. change (default [] (Some row)) with row.
  assert (Hr : length row = n) by (by eapply (Forall_lookup_1 _ _ _ _ Hrows Hrow)).
  apply list_eq. intros j.
  rewrite lookup_take, <- list_fmap_compose, list_lookup_fmap.
  destruct (decide (j < S i)%nat) as [Hj|Hj].
  - rewrite lookup_seq_lt by done. simpl. unfold entry. rewrite Hrow. simpl.
    destruct (lookup_lt_is_Some_2 row j) as [x Hx]; [lia|]. by rewrite Hx.
  - rewrite lookup_seq_ge by lia. done.
Qed.

Lemma length_tril_flatten n L :
  is_matrix n n L → length (TransitionMatrix.tril_flatten L) = tri n.
Proof.
  intros HM. rewrite (tril_flatten_pairs n L HM), length_fmap.
  apply length_tril_pairs.
Qed.

Lemma reshape_entries r c (M : np.matrix) (flat : list Qc) :
  is_matrix r c M →
  length flat = (r * c)%nat →
  (∀ i j, (i < r)%nat → (j < c)%nat → flat !! (i * c + j)%nat = entry M i j) →
  np.reshape r c flat = M.
Proof.
  intros HM Hlen Hent. unfold np.reshape.
  apply list_eq. intros i. rewrite list_lookup_fmap.
  destruct (decide (i < r)%nat) as [Hi|Hi].
  - rewrite lookup_seq_lt by done. simpl.
    destruct (lookup_lt_is_Some_2 M i) as [row Hrow]; [destruct HM; lia|].
    rewrite Hrow. f_equal.
    pose proof (is_matrix_row _ _ _ _ _ HM Hrow) as Hr.
    apply list_eq. intros j. rewrite lookup_take, lookup_drop.
    destruct (decide (j < c)%nat) as [Hj|Hj].
    + rewrite (Hent i j Hi Hj). unfold entry. by rewrite Hrow.
    + symmetry. apply lookup_ge_None. lia.
  - rewrite lookup_seq_ge by lia. simpl. symmetry.
    apply lookup_ge_None. destruct HM. lia.
Qed.

Lemma zeros_is_matrix r c : is_matrix r c (np.zeros r c).
Proof.
  split; [apply length_replicate|].
  apply Forall_replicate. apply length_replicate.
Qed.

Lemma ncols_zeros n : np.ncols (np.zeros n n) = n.
Proof. destruct n; [done|]. simpl. by rewrite length_replicate. Qed.

Lemma ravel_zeros r c : np.ravel (np.zeros r c) = replicate (r * c) 0.
Proof.
  unfold np.ravel, np.zeros. induction r as [|r IH]; [done|].
  simpl. by rewrite IH, replicate_add.
Qed.

Lemma flat_index_inj n i j i' j' :
  (j < n)%nat → (j' < n)%nat → (i * n + j = i' * n + j')%nat → i = i' ∧ j = j'.
Proof.
  intros Hj Hj' Heq.
  assert (i = i') as ->.
  { destruct (Nat.lt_trichotomy i i') as [Hlt|[->|Hlt]]; [|done|].
    - pose proof (Nat.mul_le_mono_r (S i) i' n ltac:(lia)). lia.
    - pose proof (Nat.mul_le_mono_r (S i') i n ltac:(lia)). lia. }
  split; [done|lia].
Qed.

(** C3. Expanding the row-major flattening of the lower triangle of an
    [n] by [n] lower-triangular matrix [L] (the [n (n + 1) / 2] values of the
    triangle, diagonal included) with [TransitionMatrix.full] returns exactly
    [L]: the values sit at the lower-triangular positions and everything
    above the diagonal is zero. *)
Theorem full_tril_flatten (n : nat) (L : np.matrix) :
  (1 ≤ n)%nat →
  lower_triangular n L →
  length (TransitionMatrix.tril_flatten L) = (n * (n + 1) / 2)%nat
  ∧ TransitionMatrix.full (TransitionMatrix.tril_flatten L) = Ok L.
Proof.
  intros Hn [HM Hup].
  pose proof (length_tril_flatten n L HM) as Hlen.
  split.
  { rewrite Hlen. pose proof (tri_double n).
    apply Nat.div_unique_exact; lia. }
  unfold TransitionMatrix.full. rewrite Hlen, order_tri.
  unfold np.ravel_multi_index, np.tril_indices, np.shape, np.nrows. simpl.
  rewrite ncols_zeros.
  replace (length (np.zeros n n)) with n by (by destruct (zeros_is_matrix n n)).
  rewrite ravel_multi_index_go_pairs; cycle 1.
  { apply Forall_forall. intros [i j] Hp. apply elem_of_tril_pairs in Hp.
    simpl. lia. }
  simpl. unfold np.put.
  rewrite decide_False; cycle 1.
  { intros [_ Hsz]. unfold np.size, np.nrows in Hsz. rewrite ncols_zeros in Hsz.
    destruct (zeros_is_matrix n n) as [Hz _]. rewrite Hz in Hsz. nia. }
  rewrite decide_False; cycle 1.
  { intros Hnil. rewrite Hnil in Hlen. simpl in Hlen. destruct n; simpl in *; lia. }
  rewrite (tril_flatten_pairs n L HM), ravel_zeros.
  set (f := fun p : nat * nat => (p.1 * n + p.2)%nat).
  set (g := fun p : nat * nat => default 0 (entry L p.1 p.2)).
  assert (Hrange : ∀ p, p ∈ np.tril_pairs n → (f p < length (replicate (n * n) (0 : Qc)))%nat).
  { intros [i j] Hp. apply elem_of_tril_pairs in Hp. rewrite length_replicate.
    unfold f. simpl. nia. }
  rewrite (put_from_pairs f g [] (np.tril_pairs n)) by (by apply Forall_forall).
  simpl. f_equal.
  unfold np.nrows. rewrite ncols_zeros.
  replace (length (np.zeros n n)) with n by (by destruct (zeros_is_matrix n n)).
  apply reshape_entries; [done| |].
  { by rewrite length_foldl_insert, length_replicate. }
  intros i j Hi Hj.
  destruct (entry_is_Some n n L i j HM Hi Hj) as [x Hx].
  destruct (decide (j ≤ i)%nat) as [Hji|Hji].
  - change (i * n + j)%nat with (f (i, j)).
    rewrite foldl_insert_hit.
    + unfold g. simpl. by rewrite Hx.
    + intros [i1 j1] [i2 j2] H1 H2 Heq.
      apply elem_of_tril_pairs in H1. apply elem_of_tril_pairs in H2.
      unfold f in Heq. simpl in Heq.
      destruct (flat_index_inj n i1 j1 i2 j2) as [-> ->]; [lia|lia|done|done].
    + done.
    + apply elem_of_tril_pairs. lia.
  - rewrite foldl_insert_miss.
    + rewrite lookup_replicate_2 by nia. rewrite Hx.
      f_equal. symmetry. apply (Hup i j x); [lia|done].
    + intros [i' j'] Hp Heq. apply elem_of_tril_pairs in Hp.
      unfold f in Heq. simpl in Heq.
      destruct (flat_index_inj n i' j' i j) as [-> ->]; [lia|lia|done|lia].
Qed.

(** The round trip on a two by two matrix. *)
Lemma full_tril_flatten_witness :
  (1 ≤ 2)%nat ∧ lower_triangular 2 Sample.L2
  ∧ TransitionMatrix.full (TransitionMatrix.tril_flatten Sample.L2) = Ok Sample.L2.
Proof.
  assert (Hlt : lower_triangular 2 Sample.L2).
  { split; [split; [reflexivity|repeat constructor]|].
    intros [|[|i]] [|[|[|j]]] x Hij Hx; try lia;
      unfold entry, Sample.L2 in Hx; simpl in Hx; by simplify_eq. }
  split; [lia|]. split; [exact Hlt|].
  apply (full_tril_flatten 2 Sample.L2); [lia|exact Hlt].
Defined.

(** ** [TransitionMatrix.full] never raises *)

Lemma put_from_ok k ind v a :
  Forall (fun i => (i < length a)%nat) ind →
  ∃ a', np.put_from k ind v a = Ok a' ∧ length a' = length a.
Proof.
  revert k a. induction ind as [|i ind IH]; intros k a Hind.
  { by exists a. }
  apply Forall_cons in Hind as [Hi Hind]. simpl.
  rewrite decide_True by done.
  destruct (v !! (k mod length v)%nat) as [x|]; [|by exists a].
  destruct (IH (S k) (<[i := x]> a)) as (a' & Ha' & Hlen).
  { eapply Forall_impl; [exact Hind|]. intros q Hq. simpl in Hq.
    by rewrite length_insert. }
  exists a'. split; [done|]. by rewrite Hlen, length_insert.
Qed.

Lemma put_from_take k ind v a :
  (k + length ind ≤ length v)%nat →
  np.put_from k ind v a = np.put_from k ind (take (k + length ind) v) a.
Proof.
  revert k a. induction ind as [|i ind IH]; intros k a Hlen; [done|].
  simpl in *. destruct (decide (i < length a)%nat); [|done].
  rewrite length_take, Nat.min_l by lia.
  rewrite !Nat.mod_small by lia.
  rewrite lookup_take_lt by lia.
  destruct (v !! k) as [x|] eqn:Hx; [|done].
  rewrite IH by (simpl; lia).
  by replace (S k + length ind)%nat with (k + S (length ind))%nat by lia.
Qed.

Lemma reshape_is_matrix r c flat :
  length flat = (r * c)%nat → is_matrix r c (np.reshape r c flat).
Proof.
  intros Hlen. unfold np.reshape. split.
  - by rewrite length_fmap, length_seq.
  - apply Forall_fmap, Forall_forall. intros i Hi. apply elem_of_seq in Hi.
    simpl. rewrite length_take, length_drop. nia.
Qed.

Lemma nrows_zeros r c : np.nrows (np.zeros r c) = r.
Proof. apply length_replicate. Qed.

Lemma shape_zeros n : np.shape (np.zeros n n) = (n, n).
Proof. unfold np.shape. by rewrite nrows_zeros, ncols_zeros. Qed.

Lemma tril_ravel n :
  np.ravel_multi_index (np.tril_indices n) (n, n)
  = Ok ((fun p => (p.1 * n + p.2)%nat) <$> np.tril_pairs n).
Proof.
  unfold np.ravel_multi_index, np.tril_indices. simpl.
  apply ravel_multi_index_go_pairs, Forall_forall.
  intros [i j] Hp. apply elem_of_tril_pairs in Hp. simpl. lia.
Qed.

Lemma full_total (p : list Qc) :
  ∃ M, TransitionMatrix.full p = Ok M
       ∧ is_matrix (TransitionMatrix.order (length p))
                   (TransitionMatrix.order (length p)) M.
Proof.
  unfold TransitionMatrix.full. set (n := TransitionMatrix.order (length p)).
  rewrite shape_zeros, tril_ravel. simpl. unfold np.put.
  destruct (decide (_ ∧ np.size (np.zeros n n) = 0%nat)) as [[Hne Hsz]|_].
  { exfalso. apply Hne. unfold np.size in Hsz.
    rewrite nrows_zeros, ncols_zeros in Hsz.
    assert (n = 0%nat) as -> by nia. done. }
  destruct (decide (p = [])); [exists (np.zeros n n); split; [done|apply zeros_is_matrix]|].
  destruct (put_from_ok 0 ((fun p => (p.1 * n + p.2)%nat) <$> np.tril_pairs n) p
              (np.ravel (np.zeros n n))) as (a' & Ha' & Hlen).
  { apply Forall_fmap, Forall_forall. intros [i j] Hp.
    apply elem_of_tril_pairs in Hp. rewrite ravel_zeros, length_replicate.
    simpl. nia. }
  rewrite Ha'. simpl. eexists. split; [done|].
  rewrite nrows_zeros, ncols_zeros. apply reshape_is_matrix.
  by rewrite Hlen, ravel_zeros, length_replicate.
Qed.

Lemma full_take (p : list Qc) :
  TransitionMatrix.full p
  = TransitionMatrix.full (take (tri (TransitionMatrix.order (length p))) p).
Proof.
  pose proof (order_spec (length p)) as [Hlo Hhi].
  unfold TransitionMatrix.full.
  rewrite length_take, Nat.min_l, order_tri by done.
  set (n := TransitionMatrix.order (length p)) in *.
  rewrite shape_zeros, tril_ravel. simpl. unfold np.put.
  destruct (decide (_ ∧ np.size (np.zeros n n) = 0%nat)); [done|].
  destruct (decide (p = [])) as [->|Hp].
  { by rewrite take_nil. }
  rewrite decide_False; cycle 1.
  { intros Hnil. apply (f_equal length) in Hnil.
    rewrite length_take, Nat.min_l in Hnil by done. simpl in Hnil.
    destruct n; simpl in *; [|lia]. destruct p; simpl in *; [done|lia]. }
  rewrite put_from_take by (by rewrite length_fmap, length_tril_pairs).
  by rewrite length_fmap, length_tril_pairs.
Qed.

(** C4, as the code has it.  [TransitionMatrix.full] raises for no input,
    whether the number [k] of values is triangular or not: it returns the
    [n] by [n] matrix for the largest [n] with [n (n + 1) / 2 <= k], and it
    returns the same matrix when the values after the first [n (n + 1) / 2]
    are cut off. *)
Theorem full_never_raises (p : list Qc) :
  let n := TransitionMatrix.order (length p) in
  (tri n ≤ length p < tri (S n))%nat
  ∧ ∃ M, TransitionMatrix.full p = Ok M
         ∧ is_matrix n n M
         ∧ TransitionMatrix.full (take (tri n) p) = Ok M.
Proof.
  intros n. split; [apply order_spec|].
  destruct (full_total p) as (M & HM & Hshape).
  exists M. split; [done|]. split; [done|]. subst n. by rewrite <- full_take.
Qed.

(** C4, counterexample.  Two values are not a triangular number of values,
    and [full] returns a one by one matrix instead of raising. *)
Example full_two_values_returns :
  (∀ n, (1 ≤ n)%nat → length Sample.two_values ≠ (n * (n + 1) / 2)%nat)
  ∧ TransitionMatrix.full Sample.two_values = Ok [ [1 / 2] ]
  ∧ ∀ e, TransitionMatrix.full Sample.two_values ≠ Raise e.
Proof.
  assert (Hfull : TransitionMatrix.full Sample.two_values = Ok [ [1 / 2] ])
    by reflexivity.
  split; [|split; [exact Hfull|by rewrite Hfull]].
  intros n Hn. pose proof (tri_double n) as Hd.
  replace (n * (n + 1) / 2)%nat with (tri n)
    by (apply Nat.div_unique_exact; lia).
  destruct n as [|[|[|n]]]; simpl; lia.
Qed.

(** ** The [SEIR] constructor *)

Lemma build_needs_nIR (self : SEIR.obj) :
  self !! "nIR" = None → SEIR._build self = (self, Raise AttributeError).
Proof.
  intros Hn. unfold SEIR._build, mbind, prog_bind, SEIR.getattr.
  by rewrite Hn.
Qed.

Lemma call_undefined_method `{Rank} (self : SEIR.obj) :
  self !! "check_controllability" = None →
  SEIR.call "check_controllability" self = (self, Raise AttributeError).
Proof.
  intros Hn. unfold SEIR.call, mbind, prog_bind, SEIR.getattr.
  by rewrite Hn.
Qed.

(** No value of [self.nIR] lets [_build] return: [np.zeros] takes it as a
    dimension (line 33) and line 37 asks it for its shape. *)
Lemma build_raises_on_every_instance (self : SEIR.obj) :
  ∃ e, (SEIR._build self).2 = Raise e.
Proof.
  unfold SEIR._build, mbind, prog_bind, SEIR.getattr, lift.
  destruct (self !! "nIR") as [[]|] eqn:HnIR; simpl;
    repeat (case_match; simplify_eq; simpl in *; eauto).
  all: eauto.
Qed.

(** C2. For every input the constructor raises [AttributeError] and returns
    no model.  [_build] reads [self.nIR] and then [self.nEI], and
    [__init__] has assigned only [nSteps], [dt], [EI], [IR] and [C] before:
    on any instance without [nIR], or with [nIR] and without [nEI], [_build]
    raises [AttributeError].  And [check_controllability], which [__init__]
    calls next, is no attribute of the instance or of the class: the call
    raises [AttributeError] on any instance that does not carry the name
    itself. *)
Theorem SEIR_constructor_raises_AttributeError `{Rank}
    (nSteps dt EI IR C : SEIR.pyval) :
  SEIR.new nSteps dt EI IR C = Raise AttributeError
  ∧ (∀ self : SEIR.obj,
       (SEIR._build (delete "nIR" self)).2 = Raise AttributeError)
  ∧ (∀ (self : SEIR.obj) (v : SEIR.pyval),
       (SEIR._build (<["nIR" := v]> (delete "nEI" self))).2 = Raise AttributeError)
  ∧ (∀ self : SEIR.obj,
       (SEIR.call "check_controllability"
          (delete "check_controllability" self)).2 = Raise AttributeError).
Proof.
  split; [|split; [|split]].
  - unfold SEIR.new, SEIR.__init__, SEIR.setattr, modify, mbind, prog_bind.
    unfold SEIR.call at 1. unfold mbind, prog_bind, SEIR.getattr.
    rewrite !lookup_insert_ne, lookup_empty by done. simpl.
    rewrite build_needs_nIR; [done|].
    by rewrite !lookup_insert_ne, lookup_empty by done.
  - intros self. rewrite build_needs_nIR; [done|apply lookup_delete_eq].
  - intros self v. unfold SEIR._build, mbind, prog_bind, SEIR.getattr.
    rewrite lookup_insert_eq, lookup_insert_ne, lookup_delete_eq by done.
    done.
  - intros self. rewrite call_undefined_method; [done|apply lookup_delete_eq].
Qed.

(** ** The observability check *)

Lemma is_matrix_ncols r c M : is_matrix r c M → (1 ≤ r)%nat → np.ncols M = c.
Proof.
  intros [Hlen Hrows] Hr. destruct M as [|row M]; simpl in *; [lia|].
  by apply Forall_cons in Hrows as [? _].
Qed.

Lemma length_inner {A} (l : list A) : length (np.inner l) = (length l - 2)%nat.
Proof. unfold np.inner. rewrite length_take, length_drop. lia. Qed.

Lemma inner2_is_matrix n A :
  is_matrix (n + 2) (n + 2) A → is_matrix n n (np.inner2 A).
Proof.
  intros [Hlen Hrows]. unfold np.inner2. split.
  - rewrite length_fmap, length_inner. lia.
  - apply Forall_fmap. unfold np.inner at 2.
    apply Forall_take, Forall_drop.
    eapply Forall_impl; [exact Hrows|]. intros row Hrow. simpl in *.
    rewrite length_inner. lia.
Qed.

Lemma inner_cols_is_matrix r n C :
  is_matrix r (n + 2) C → is_matrix r n (np.inner_cols C).
Proof.
  intros [Hlen Hrows]. unfold np.inner_cols. split.
  - by rewrite length_fmap.
  - apply Forall_fmap. eapply Forall_impl; [exact Hrows|].
    intros row Hrow. simpl in *. rewrite length_inner. lia.
Qed.

Lemma product_is_matrix r n X A :
  is_matrix r n X → is_matrix n n A → (1 ≤ n)%nat →
  is_matrix r n (np.product X A).
Proof.
  intros [Hlen _] HA Hn. unfold np.product. split.
  - by rewrite length_fmap.
  - apply Forall_fmap, Forall_forall. intros row _. simpl.
    rewrite length_fmap, length_seq. by apply (is_matrix_ncols n n).
Qed.

Lemma times_power_is_matrix n C A i :
  is_matrix 1 n C → is_matrix n n A → (1 ≤ n)%nat →
  is_matrix 1 n (times_power C A i).
Proof.
  intros HC HA Hn. induction i as [|i IH]; [done|].
  simpl. by apply product_is_matrix.
Qed.

Lemma obs_loop_powers n C A k m :
  is_matrix 1 n C → is_matrix n n A → (1 ≤ n)%nat →
  SEIR.obs_loop k A (times_power C A <$> seq 0 (S m))
  = Ok (times_power C A <$> seq 0 (S m + k)).
Proof.
  intros HC HA Hn. revert m. induction k as [|k IH]; intros m.
  { by rewrite Nat.add_0_r. }
  cbn [SEIR.obs_loop].
  replace (S m + S k)%nat with (S (S m) + k)%nat by lia.
  rewrite <- IH.
  assert (Hlast : last (times_power C A <$> seq 0 (S m))
                  = Some (times_power C A m))
    by (by rewrite seq_S, fmap_snoc, last_snoc).
  rewrite Hlast. unfold np.matmul.
  rewrite decide_True; cycle 1.
  { rewrite (is_matrix_ncols 1 n) by (by apply times_power_is_matrix || lia).
    by destruct HA. }
  by rewrite (seq_S (S m)), fmap_snoc.
Qed.

Lemma observability_matrix_is_matrix n C A k :
  is_matrix 1 n C → is_matrix n n A → (1 ≤ n)%nat →
  is_matrix k n (observability_matrix C A k).
Proof.
  intros HC HA Hn. unfold observability_matrix.
  induction k as [|k IH]; [by split|].
  rewrite seq_S, fmap_snoc, concat_app. simpl. rewrite app_nil_r.
  destruct IH as [Hlen Hrows].
  destruct (times_power_is_matrix n C A k HC HA Hn) as [Hl Hr].
  split.
  - rewrite length_app, Hlen, Hl. lia.
  - by apply Forall_app.
Qed.

Lemma vstack_rows n (Ms : list np.matrix) :
  Ms ≠ [] → Forall (is_matrix 1 n) Ms → np.vstack Ms = Ok (concat Ms).
Proof.
  intros Hne HMs. destruct Ms as [|M Ms]; [done|].
  apply Forall_cons in HMs as [HM HMs]. unfold np.vstack.
  rewrite decide_True; [done|].
  eapply Forall_impl; [exact HMs|]. intros M' HM'. simpl.
  by rewrite !(is_matrix_ncols 1 n) by (done || lia).
Qed.

(** C1, as the code has it.  On an instance that holds an assembled model
    ([A] of size [n + 2], the observation row [C], the stage count [n >= 1]
    in [nEIR]) the observability check stacks [C; C·A; ...; C·A^(n-1)] for
    the E/I subsystem, returns that matrix when its rank is [n], and stops
    with the [AssertionError] of its [assert] when the matrix is
    rank-deficient.  The instance itself is left as it was. *)
Theorem check_observability_gate `{Rank} (self : SEIR.obj) (A C : np.matrix)
    (n : nat) :
  (1 ≤ n)%nat →
  is_matrix (n + 2) (n + 2) A →
  is_matrix 1 (n + 2) C →
  self !! "A" = Some (SEIR.VMat A) →
  self !! "C" = Some (SEIR.VMat C) →
  self !! "nEIR" = Some (SEIR.VInt (Z.of_nat n)) →
  let O := observability_matrix (np.inner_cols C) (np.inner2 A) n in
  is_matrix n n O
  ∧ SEIR.check_observability true self
    = (self, if decide (matrix_rank O = n) then Ok O else Raise AssertionError).
Proof.
  intros Hn HA HC HsA HsC Hsn O.
  pose proof (inner2_is_matrix n A HA) as HA'.
  pose proof (inner_cols_is_matrix 1 n C HC) as HC'.
  split; [by apply observability_matrix_is_matrix|].
  assert (Hrun : SEIR.check_observability true self
                 = (self, if bool_decide (Z.of_nat (matrix_rank O) = Z.of_nat n)
                          then Ok O else Raise AssertionError)).
  { unfold SEIR.check_observability, mbind, prog_bind, SEIR.getattr, lift.
    rewrite HsA. simpl. rewrite HsC. simpl. rewrite Hsn. simpl.
    change ((fun l : list Qc => np.inner l) <$> np.inner A)
      with (np.inner2 A).
    change ((fun l : list Qc => np.inner l) <$> C) with (np.inner_cols C).
    replace (Z.to_nat (Z.of_nat n - 1)) with (n - 1)%nat by lia.
    change [np.inner_cols C]
      with (times_power (np.inner_cols C) (np.inner2 A) <$> seq 0 1).
    rewrite (obs_loop_powers n) by done.
    replace (1 + (n - 1))%nat with n by lia.
    rewrite (vstack_rows n); cycle 1.
    { destruct n; [lia|]. rewrite seq_S, fmap_snoc. by destruct (_ <$> seq 0 n). }
    { apply Forall_fmap, Forall_forall. intros i _. simpl.
      by apply times_power_is_matrix. }
    fold (observability_matrix (np.inner_cols C) (np.inner2 A) n). fold O.
    rewrite Hsn. unfold SEIR.rank_equals, mret, prog_ret, raise.
    by destruct (bool_decide _). }
  rewrite Hrun. destruct (decide (matrix_rank O = n)) as [Hrank|Hrank].
  - by rewrite bool_decide_eq_true_2 by lia.
  - by rewrite bool_decide_eq_false_2 by lia.
Qed.

(** The check on the assembled one-stage model: full rank, the matrix is
    returned. *)
Lemma check_observability_gate_witness :
  @SEIR.check_observability gauss_rank true (Sample.model Sample.A1 2)
  = (Sample.model Sample.A1 2,
     Ok (observability_matrix (np.inner_cols (SEIR.C_of 4))
           (np.inner2 Sample.A1) 2)).
Proof.
  destruct (@check_observability_gate gauss_rank (Sample.model Sample.A1 2)
              Sample.A1 (SEIR.C_of 4) 2) as [_ Hrun].
  - lia.
  - split; [reflexivity|repeat constructor].
  - split; [reflexivity|repeat constructor].
  - reflexivity.
  - reflexivity.
  - reflexivity.
  - rewrite Hrun. reflexivity.
Defined.

(** C1, counterexample.  With one exposed and one infectious stage the
    stacked observability matrix has full rank 2, and the constructor raises
    [AttributeError] instead of returning the model.  With two exposed stages
    of the same dynamics the matrix has rank 2 < 3; the constructor raises the
    same [AttributeError], and the check itself, on the assembled model, raises
    [AssertionError]. *)
Example observable_model_is_not_constructed :
  (bEI ← SEIR.belowEI_of 1 1 Sample.EI1;
   SEIR.assemble 1 1 Sample.EI1 bEI Sample.IR1 (SEIR.belowIR_of Sample.IR1))
  = Ok Sample.A1
  ∧ gauss_rank (observability_matrix (np.inner_cols (SEIR.C_of 4))
                  (np.inner2 Sample.A1) 2) = 2%nat
  ∧ @SEIR.new gauss_rank (SEIR.VInt 10) (SEIR.VFloat 1)
      (SEIR.VMat Sample.EI1) (SEIR.VMat Sample.IR1) (SEIR.VInt 1)
    = Raise AttributeError
  ∧ (bEI ← SEIR.belowEI_of 1 2 Sample.EI_twin;
     SEIR.assemble 2 1 Sample.EI_twin bEI Sample.IR1 (SEIR.belowIR_of Sample.IR1))
    = Ok Sample.A_twin
  ∧ gauss_rank (observability_matrix (np.inner_cols (SEIR.C_of 5))
                  (np.inner2 Sample.A_twin) 3) = 2%nat
  ∧ @SEIR.new gauss_rank (SEIR.VInt 10) (SEIR.VFloat 1)
      (SEIR.VMat Sample.EI_twin) (SEIR.VMat Sample.IR1) (SEIR.VInt 1)
    = Raise AttributeError
  ∧ (@SEIR.check_observability gauss_rank true (Sample.model Sample.A_twin 3)).2
    = Raise AssertionError.
Proof.
  repeat split; try reflexivity; by apply (bool_decide_eq_true_1 _).
Qed.

(** ** The matrix that [_build] does not assemble *)

(** Every statement of [_build] that writes an attribute comes after the
    reads of lines 33 and 37, and no value of [self.nIR] passes both. *)
Lemma build_writes_nothing (self : SEIR.obj) :
  ∃ e, SEIR._build self = (self, Raise e).
Proof.
  unfold SEIR._build, mbind, prog_bind, SEIR.getattr, lift.
  destruct (self !! "nIR") as [[]|] eqn:HnIR; simpl;
    repeat (case_match; simplify_eq; simpl in *; eauto).
  all: eauto.
Qed.

(** C5, on the code.  [_build] assembles no matrix [A] whose columns could
    sum to 1.  On every instance it stops with an exception and leaves the
    instance as it found it, without [A].  On the instance that [__init__]
    prepares, whatever the arguments, the exception is the [AttributeError]
    of the read of [self.nIR] in line 33, and the constructor ends with it.
    For one exposed and one infectious stage, each left with probability
    1/2, the constructor raises; the block expression of lines 33-44,
    handed the stage counts 1 and 1, is the 4 by 4 matrix with unit column
    sums that the code is written to assemble. *)
Theorem build_assembles_no_matrix `{Rank} :
  (∀ self : SEIR.obj, ∃ e, SEIR._build self = (self, Raise e))
  ∧ (∀ nSteps dt EI IR C : SEIR.pyval,
       let self : SEIR.obj :=
         <["C" := C]> (<["IR" := IR]> (<["EI" := EI]> (<["dt" := dt]>
           (<["nSteps" := nSteps]> ∅)))) in
       self !! "A" = None
       ∧ SEIR._build self = (self, Raise AttributeError)
       ∧ SEIR.__init__ nSteps dt EI IR C ∅ = (self, Raise AttributeError))
  ∧ SEIR.new (SEIR.VInt 10) (SEIR.VFloat 1) (SEIR.VMat Sample.EI1)
      (SEIR.VMat Sample.IR1) SEIR.VNone
    = Raise AttributeError
  ∧ (bEI ← SEIR.belowEI_of 1 1 Sample.EI1;
     SEIR.assemble 1 1 Sample.EI1 bEI Sample.IR1 (SEIR.belowIR_of Sample.IR1))
    = Ok Sample.A1
  ∧ ∀ j, (j < 4)%nat → np.sum (np.column Sample.A1 j) = 1.
Proof.
  split; [exact build_writes_nothing|]. split; [|split; [|split]].
  - intros nSteps dt EI IR C self.
    assert (HnIR : self !! "nIR" = None).
    { unfold self. by rewrite !lookup_insert_ne, lookup_empty by done. }
    split; [|split].
    + unfold self. by rewrite !lookup_insert_ne, lookup_empty by done.
    + by apply build_needs_nIR.
    + unfold SEIR.__init__, SEIR.setattr, modify, mbind, prog_bind.
      unfold SEIR.call at 1. unfold mbind, prog_bind, SEIR.getattr.
      rewrite !lookup_insert_ne, lookup_empty by done. simpl.
      fold self. by rewrite build_needs_nIR.
  - unfold SEIR.new, SEIR.__init__, SEIR.setattr, modify, mbind, prog_bind.
    unfold SEIR.call at 1. unfold mbind, prog_bind, SEIR.getattr.
    rewrite !lookup_insert_ne, lookup_empty by done. simpl.
    rewrite build_needs_nIR; [done|].
    by rewrite !lookup_insert_ne, lookup_empty by done.
  - reflexivity.
  - intros [|[|[|[|j]]]] Hj; try lia; by apply (bool_decide_eq_true_1 _).
Qed.

(** ** The control loop *)

Section Loop.
Import controller_intervention.
Context {K Ct : Type} `{Estimator K} `{Feedback Ct} `{Power}.

(** C7. On a day of the open-loop regime ([t < start_day], or nobody
    susceptible, or nobody infectious) [apply] leaves the host, with its
    [beta] and every [beta_layer] entry, as it was, and also the integral
    error and [u_k]; of the intervention's attributes only the estimator
    changes. *)
Theorem open_loop_changes_estimator_only (σ : store K Ct) :
  open_loop σ = true →
  same_but_estimator σ (apply σ).1
  ∧ pars_beta (host (apply σ).1) = pars_beta (host σ)
  ∧ pars_beta_layer (host (apply σ).1) = pars_beta_layer (host σ).
Proof.
  intros Hopen.
  assert (Hframe : same_but_estimator σ (apply σ).1).
  { unfold apply, mbind, prog_bind, get. rewrite Hopen.
    unfold Kalman_update, attr, when, print, emit, set_me, modify, lift, raise,
      mret, prog_ret, mbind, prog_bind, get.
    destruct σ as [s m l]. simpl.
    repeat (case_match; simplify_eq; simpl); by repeat split. }
  split; [done|]. destruct Hframe as [-> _]. done.
Qed.

(** [initialize] creates the attributes that [apply] reads. *)
Lemma initialize_creates_attributes (σ : store K Ct) :
  (0 ≤ pars_n_days (host σ) + 1)%Z →
  ∃ σ',
    initialize σ = (σ', Ok tt)
    ∧ host σ' = host σ
    ∧ beta0 (me σ') = Some (pars_beta (host σ))
    ∧ beta_layer0 (me σ') = Some (pars_beta_layer (host σ))
    ∧ u_k (me σ')
      = Some (replicate (Z.to_nat (pars_n_days (host σ) + 1)) (pars_beta (host σ)))
    ∧ Kalman (me σ')
      = Some (kf (count_true (people_exposed (host σ))) (the_SEIR (me σ))).
Proof.
  intros Hdays.
  unfold initialize, set_u_k, set_me, modify, mbind, prog_bind, get.
  rewrite decide_True by done. simpl. eexists. by repeat split.
Qed.

(** *** What reaches the log *)

Lemma prints_only_bind {A B} (c : prog (store K Ct) A) (f : A → prog (store K Ct) B) :
  prints_only c → (∀ a, prints_only (f a)) → prints_only (c ≫= f).
Proof.
  intros Hc Hf σ. unfold mbind, prog_bind.
  destruct (Hc σ) as (ps1 & Hlog1 & Hps1).
  destruct (c σ) as [σ1 [a|e]]; simpl in *.
  - destruct (Hf a σ1) as (ps2 & Hlog2 & Hps2).
    exists (ps1 ++ ps2). split.
    + by rewrite Hlog2, Hlog1, <- app_assoc.
    + by apply Forall_app.
  - by exists ps1.
Qed.

Lemma prints_only_silent {A} (c : prog (store K Ct) A) :
  (∀ σ, log (c σ).1 = log σ) → prints_only c.
Proof. intros Hc σ. exists []. by rewrite Hc, app_nil_r. Qed.

Lemma prints_only_ret {A} (a : A) : prints_only (mret a : prog (store K Ct) A).
Proof. by apply prints_only_silent. Qed.

Lemma prints_only_raise {A} e : prints_only (raise e : prog (store K Ct) A).
Proof. by apply prints_only_silent. Qed.

Lemma prints_only_lift {A} (x : outcome A) : prints_only (lift x : prog (store K Ct) A).
Proof. by apply prints_only_silent. Qed.

Lemma prints_only_get : prints_only (get : prog (store K Ct) _).
Proof. by apply prints_only_silent. Qed.

Lemma prints_only_set_host f : prints_only (set_host (K := K) (Ct := Ct) f).
Proof. by apply prints_only_silent. Qed.

Lemma prints_only_set_me f : prints_only (set_me (K := K) (Ct := Ct) f).
Proof. by apply prints_only_silent. Qed.

Lemma prints_only_print m : prints_only (print (K := K) (Ct := Ct) m).
Proof. intros σ. exists [Print m]. split; [done|]. by repeat constructor. Qed.

Lemma prints_only_attr {A} (f : self K Ct → option A) : prints_only (attr f).
Proof.
  apply prints_only_silent. intros σ. unfold attr, mbind, prog_bind, get.
  by destruct (f (me σ)).
Qed.

Lemma prints_only_the_u_k : prints_only (the_u_k (K := K) (Ct := Ct)).
Proof.
  apply prints_only_silent. intros σ. unfold the_u_k, mbind, prog_bind, get.
  by destruct (u_k (me σ)).
Qed.

Lemma prints_only_Ipow : prints_only (Ipow (K := K) (Ct := Ct)).
Proof.
  apply prints_only_silent. intros σ. unfold Ipow, mbind, prog_bind, get.
  destruct (SEIR.getattr "Ipow" (the_SEIR (me σ))) as [? [[]|]]; done.
Qed.

Lemma prints_only_when b (c : prog (store K Ct) unit) :
  prints_only c → prints_only (when b c).
Proof. intros Hc. destruct b; [done|apply prints_only_ret]. Qed.

Lemma prints_only_for_each {A} (l : list A) (body : A → prog (store K Ct) unit) :
  (∀ x, prints_only (body x)) → prints_only (for_each l body).
Proof.
  intros Hb. induction l as [|x l IH]; [apply prints_only_ret|].
  simpl. apply prints_only_bind; [apply Hb|]. by intros _.
Qed.

Ltac solve_prints_only :=
  repeat first
    [ apply prints_only_ret | apply prints_only_raise | apply prints_only_lift
    | apply prints_only_get | apply prints_only_set_host
    | apply prints_only_set_me | apply prints_only_print
    | apply prints_only_attr | apply prints_only_the_u_k
    | apply prints_only_Ipow
    | apply prints_only_when | apply prints_only_for_each; intros
    | apply prints_only_bind; [|intros]
    | case_decide ].

Lemma prints_only_new_rate u xs N xi : prints_only (new_rate (K := K) (Ct := Ct) u xs N xi).
Proof. unfold new_rate. solve_prints_only. Qed.

Lemma prints_only_actuate u y : prints_only (actuate (K := K) (Ct := Ct) u y).
Proof.
  unfold actuate, set_beta_layer, set_u_k, set_integrated_err.
  solve_prints_only.
Qed.



Lemma emitted_app (σ σ' : store K Ct) evs :
  log σ' = log σ ++ evs → emitted σ σ' = evs.
Proof. intros Hlog. unfold emitted. by rewrite Hlog, drop_app_length. Qed.

Lemma open_loop_false (σ : store K Ct) :
  open_loop σ = false
  ↔ (start_day (me σ) ≤ t (host σ))%Z
    ∧ susceptible (host σ) ≠ 0 ∧ infectious (host σ) ≠ 0.
Proof.
  unfold open_loop. rewrite orb_false_iff, !bool_decide_eq_false. split.
  - intros [Ht HSI]. split; [lia|]. split; intros Hz; apply HSI; rewrite Hz; ring.
  - intros (Ht & HS & HI). split; [lia|]. intros HSI.
    apply Qcmult_integral in HSI as [?|?]; done.
Qed.

Lemma open_loop_true (σ : store K Ct) :
  open_loop σ = true
  ↔ (t (host σ) < start_day (me σ))%Z
    ∨ susceptible (host σ) = 0 ∨ infectious (host σ) = 0.
Proof.
  unfold open_loop. rewrite orb_true_iff, !bool_decide_eq_true. split.
  - intros [Ht|HSI]; [by left|right]. by apply Qcmult_integral.
  - intros [Ht|[HS|HI]]; [by left|right; rewrite HS; ring|right; rewrite HI; ring].
Qed.

(** The log of one call of [apply], once the estimator exists and the results
    of the previous day can be read. *)
Lemma apply_log (σ : store K Ct) (k : K) (y x : Qc) :
  Kalman (me σ) = Some k →
  getitem (results_n_exposed (host σ)) (t (host σ) - 1) = Ok y →
  getitem (results_new_infections (host σ)) (t (host σ) - 1) = Ok x →
  let I := infectious (host σ) in
  let Xu := EIhat k ++ [integrated_err (me σ)] in
  ∃ pre post,
    Forall (fun e => is_print e = true) pre
    ∧ Forall (fun e => is_print e = true) post
    ∧ emitted σ (apply σ).1
      = pre
        ++ (if open_loop σ then [KalmanUpdate (y - I) I x]
            else [GetControl Xu;
                  KalmanUpdate (y - I) I
                    (maximum (get_control (Controller (me σ)) Xu) 0)])
        ++ post.
Proof.
  intros HK Hy Hx I Xu.
  set (pre := if verbose (me σ)
              then [Print (MsgDay (t (host σ))); Print (MsgNewExposures x)]
              else []).
  assert (Hpre : Forall (fun e => is_print e = true) pre).
  { unfold pre. destruct (verbose (me σ)); by repeat constructor. }
  destruct (open_loop σ) eqn:Hopen.
  - exists pre, []. split; [done|]. split; [done|].
    apply emitted_app. unfold apply, mbind, prog_bind, get. rewrite Hopen.
    unfold Kalman_update, attr, when, print, emit, set_me, modify, lift,
      mret, prog_ret, mbind, prog_bind, get.
    subst pre. destruct (verbose (me σ)); simpl; rewrite ?Hy, ?Hx; simpl;
      rewrite HK; simpl; by rewrite <- ?app_assoc.
  - set (u := maximum (get_control (Controller (me σ)) Xu) 0).
    assert (Hhead : ∃ σ2,
      (apply σ).1 = (actuate u y σ2).1
      ∧ log σ2 = log σ ++ pre ++ [GetControl Xu; KalmanUpdate (y - I) I u]).
    { unfold apply, mbind, prog_bind, get. rewrite Hopen.
      unfold Kalman_update, Controller_get_control, attr, when, print, emit,
        set_me, modify, lift, mret, prog_ret, mbind, prog_bind, get.
      subst pre. destruct (verbose (me σ)); simpl; rewrite ?Hy, ?Hx; simpl;
        rewrite HK; simpl; rewrite HK; simpl;
        (eexists; split; [reflexivity|]; simpl; by rewrite <- ?app_assoc). }
    destruct Hhead as (σ2 & Hσ2 & Hlog2).
    destruct (prints_only_actuate u y σ2) as (post & Hlog & Hpost).
    exists pre, post. split; [done|]. split; [done|].
    apply emitted_app. by rewrite Hσ2, Hlog, Hlog2, <- !app_assoc.
Qed.


(** *** The closed loop, step by step *)

Lemma with_beta_layer_same (s : sim) : with_beta_layer s (pars_beta_layer s) = s.
Proof. by destruct s. Qed.

Lemma layers_loop keys (s : sim) (m : self K Ct) l nb bl0 b0 :
  beta_layer0 m = Some bl0 → beta0 m = Some b0 → b0 ≠ 0 →
  (∀ key, key ∈ keys → is_Some (bl0 !! key)) →
  ∃ bl',
    for_each keys (scale_layer nb) {| host := s; me := m; log := l |}
    = ({| host := with_beta_layer s bl'; me := m; log := l |}, Ok tt)
    ∧ (∀ key, key ∈ keys → bl' !! key = (fun b => b * nb / b0) <$> bl0 !! key)
    ∧ (∀ key, key ∉ keys → bl' !! key = pars_beta_layer s !! key).
Proof.
  intros Hbl0 Hb0 Hnz. revert s.
  induction keys as [|key keys IH]; intros s Hkeys.
  { exists (pars_beta_layer s). rewrite with_beta_layer_same.
    split; [done|]. split; [|done]. intros key Hkey. by apply elem_of_nil in Hkey. }
  destruct (Hkeys key) as [b Hb]; [left|].
  destruct (IH (with_beta_layer s (<[key := b * nb / b0]> (pars_beta_layer s))))
    as (bl' & Hrun & Hin & Hout).
  { intros key' Hkey'. apply Hkeys. by right. }
  exists bl'. split; [|split].
  - cbn [for_each]. unfold mbind at 1, prog_bind.
    unfold scale_layer at 1, set_beta_layer, set_host, attr, modify, lift,
      dict_get, divide, mbind, prog_bind, get.
    simpl. rewrite Hbl0. simpl. rewrite Hb. simpl. rewrite Hb0. simpl.
    rewrite decide_False by done. simpl.
    exact Hrun.
  - intros key' Hkey'. destruct (decide (key' ∈ keys)) as [Hk|Hk]; [by apply Hin|].
    apply elem_of_cons in Hkey' as [->|?]; [|done].
    rewrite (Hout key Hk). simpl. by rewrite lookup_insert_eq, Hb.
  - intros key' Hkey'. apply not_elem_of_cons in Hkey' as [Hne Hk].
    rewrite (Hout key' Hk). simpl. by rewrite lookup_insert_ne.
Qed.

Lemma new_rate_run (s : sim) (m : self K Ct) l u xs N xi p b0 :
  the_SEIR m !! "Ipow" = Some (SEIR.VFloat p) →
  beta0 m = Some b0 →
  N ≠ 0 → xs ≠ 0 → (0 < xi → power xi p ≠ 0) →
  ∃ ps,
    new_rate u xs N xi {| host := s; me := m; log := l |}
    = ({| host := s; me := m; log := l ++ ps |}, Ok (requested_rate u xs N xi p b0))
    ∧ Forall (fun e => is_print e = true) ps
    ∧ (¬ 0 < xi → Print (MsgNegativeEstimate xi) ∈ ps).
Proof.
  intros Hp Hb0 HN Hxs Hpow. unfold new_rate, requested_rate.
  unfold mbind at 1, prog_bind, get.
  destruct (decide (0 < xi)) as [Hxi|Hxi].
  - specialize (Hpow Hxi).
    assert (HSI : xs * power xi p / N ≠ 0).
    { intros Hz. apply (f_equal (fun q => q * N)) in Hz.
      rewrite Qcmult_0_l in Hz. unfold Qcdiv in Hz.
      rewrite <- Qcmult_assoc, (Qcmult_comm (/ N)), Qcmult_inv_r, Qcmult_1_r in Hz
        by done.
      apply Qcmult_integral in Hz as [?|?]; done. }
    exists (if verbose m then [Print MsgShrinkingBeta] else []).
    split; [|split; [by destruct (verbose m); repeat constructor|done]].
    unfold Ipow, SEIR.getattr, when, print, emit, modify, lift, divide,
      mret, prog_ret, mbind, prog_bind, get.
    simpl. rewrite Hp. simpl.
    rewrite (decide_False (P := N = 0)) by done. simpl.
    rewrite (decide_False (P := xs * power xi p / N = 0)) by done.
    destruct (verbose m); simpl; by rewrite ?app_nil_r.
  - exists [Print (MsgNegativeEstimate xi)].
    split; [|split; [by repeat constructor|intros _; by left]].
    unfold print, emit, attr, modify, mbind, prog_bind, get. simpl.
    by rewrite Hb0.
Qed.

Lemma bind_ok {Σ A B} (c : prog Σ A) (f : A → prog Σ B) σ σ' a :
  c σ = (σ', Ok a) → (c ≫= f) σ = f a σ'.
Proof. intros Hc. unfold mbind, prog_bind. by rewrite Hc. Qed.

Lemma attr_ok {A} (f : self K Ct → option A) (σ : store K Ct) a :
  f (me σ) = Some a → attr f σ = (σ, Ok a).
Proof. intros Hf. unfold attr, mbind, prog_bind, get. by rewrite Hf. Qed.

Lemma the_u_k_ok (σ : store K Ct) uk :
  u_k (me σ) = Some uk → the_u_k σ = (σ, Ok uk).
Proof. intros Hf. unfold the_u_k, mbind, prog_bind, get. by rewrite Hf. Qed.

Lemma actuate_run (s : sim) (m : self K Ct) l k uk b0 bl0 tg p y slot u :
  Kalman m = Some k →
  u_k m = Some uk →
  beta0 m = Some b0 →
  beta_layer0 m = Some bl0 →
  targets m !! "infected" = Some tg →
  the_SEIR m !! "Ipow" = Some (SEIR.VFloat p) →
  b0 ≠ 0 →
  scaled_pop_size s ≠ 0 →
  susceptible s ≠ 0 →
  (∀ key, key ∈ layer_keys → is_Some (bl0 !! key)) →
  getitem (results_n_exposed s) (t s - 1) = Ok y →
  py_pos uk (t s) = Some slot →
  let xi := early_weighted (Ihat k) in
  let nb := requested_rate u (susceptible s) (scaled_pop_size s) xi p b0 in
  (0 < xi → power xi p ≠ 0) →
  ∃ bl' post,
    actuate u y {| host := s; me := m; log := l |}
    = ({| host := with_beta_layer s bl';
          me := with_integrated_err (with_u_k m (<[slot := nb]> uk))
                  (integrated_err m + y - tg);
          log := l ++ post |}, Ok tt)
    ∧ (∀ key, key ∈ layer_keys → bl' !! key = (fun b => b * nb / b0) <$> bl0 !! key)
    ∧ (∀ key, key ∉ layer_keys → bl' !! key = pars_beta_layer s !! key)
    ∧ Forall (fun e => is_print e = true) post
    ∧ (¬ 0 < xi → Print (MsgNegativeEstimate xi) ∈ post).
Proof.
  intros HK Huk Hb0 Hbl0 Htg Hp Hnz HN HS Hkeys Hy Hslot xi nb Hpow.
  destruct (new_rate_run s m l u (susceptible s) (scaled_pop_size s) xi p b0)
    as (ps & Hnr & Hps & Hwarn); [done..|].
  fold nb in Hnr.
  destruct (layers_loop layer_keys s m (l ++ ps) nb bl0 b0)
    as (bl' & Hloop & Hin & Hout); [done..|].
  set (tail := if verbose m
               then [Print (MsgAsking u);
                     Print (MsgNewError y y tg (y - tg) (integrated_err m))]
               else []).
  exists bl', (ps ++ tail). split; [|split; [done|split; [done|split]]].
  - unfold actuate.
    rewrite (bind_ok get _ _ _ _ eq_refl). cbv zeta. simpl host. simpl me.
    rewrite (bind_ok (attr Kalman) _ _ _ k) by (by apply attr_ok).
    fold xi. rewrite (bind_ok _ _ _ _ _ Hnr).
    rewrite (bind_ok _ _ _ _ _ Hloop).
    rewrite (bind_ok the_u_k _ _ _ uk) by (by apply the_u_k_ok).
    unfold setitem. simpl t. rewrite Hslot.
    rewrite (bind_ok (lift _) _ _ _ _ eq_refl).
    rewrite (bind_ok (set_u_k _) _ _ _ _ eq_refl).
    unfold dict_get. rewrite Hy, Htg. subst tail.
    destruct (verbose m); simpl;
      unfold print, emit, set_integrated_err, set_me, modify, lift, mret,
        prog_ret, mbind, prog_bind; simpl;
      by rewrite <- ?app_assoc, ?app_nil_r.
  - apply Forall_app. split; [done|].
    subst tail. destruct (verbose m); by repeat constructor.
  - intros Hxi. apply elem_of_app. left. by apply Hwarn.
Qed.

Lemma py_pos_lt {A} (l : list A) i k : py_pos l i = Some k → (k < length l)%nat.
Proof.
  unfold py_pos. intros Hk. case_decide as Hr; [|done].
  simplify_eq. case_decide; lia.
Qed.

Lemma getitem_pos {A} (l : list A) i :
  is_Some (py_pos l i) → ∃ x, getitem l i = Ok x.
Proof.
  intros [k Hk]. unfold getitem. rewrite Hk. simpl.
  destruct (lookup_lt_is_Some_2 l k (py_pos_lt l i k Hk)) as [x Hx].
  exists x. by rewrite Hx.
Qed.

(** One closed-loop day of an initialised intervention, from start to end. *)
Lemma apply_closed_loop (σ : store K Ct) k uk b0 bl0 tg p y slot :
  ready σ k uk b0 bl0 tg p y slot →
  open_loop σ = false →
  let I := infectious (host σ) in
  let Xu := EIhat k ++ [integrated_err (me σ)] in
  let u := maximum (get_control (Controller (me σ)) Xu) 0 in
  let k' := update k (y - I) I u in
  let xi := early_weighted (Ihat k') in
  let nb := requested_rate u (susceptible (host σ)) (scaled_pop_size (host σ))
              xi p b0 in
  (0 < xi → power xi p ≠ 0) →
  ∃ σ',
    apply σ = (σ', Ok tt)
    ∧ (∀ key, key ∈ layer_keys →
         pars_beta_layer (host σ') !! key = (fun b => b * nb / b0) <$> bl0 !! key)
    ∧ (∀ key, key ∉ layer_keys →
         pars_beta_layer (host σ') !! key = pars_beta_layer (host σ) !! key)
    ∧ pars_beta (host σ') = pars_beta (host σ)
    ∧ u_k (me σ') = Some (<[slot := nb]> uk)
    ∧ integrated_err (me σ') = integrated_err (me σ) + y - tg
    ∧ Kalman (me σ') = Some k'
    ∧ (¬ 0 < xi → Print (MsgNegativeEstimate xi) ∈ emitted σ σ').
Proof.
  intros [HK Huk Hb0 Hbl0 Htg Hp Hnz HN Hkeys Hy Hx Hslot] Hopen I Xu u k' xi nb Hpow.
  destruct (getitem_pos _ _ Hx) as [x Hgx].
  pose proof (proj1 (open_loop_false σ) Hopen) as (_ & HS & _).
  destruct σ as [s m l]. simpl in *.
  set (pre := if verbose m
              then [Print (MsgDay (t s)); Print (MsgNewExposures x)]
              else []).
  destruct (actuate_run s (with_Kalman m k')
              (l ++ pre ++ [GetControl Xu; KalmanUpdate (y - I) I u])
              k' uk b0 bl0 tg p y slot u)
    as (bl' & post & Hact & Hin & Hout & Hpost & Hwarn); [done..|].
  fold xi nb in Hact, Hin, Hwarn.
  exists {| host := with_beta_layer s bl';
            me := with_integrated_err
                    (with_u_k (with_Kalman m k') (<[slot := nb]> uk))
                    (integrated_err m + y - tg);
            log := (l ++ pre ++ [GetControl Xu; KalmanUpdate (y - I) I u])
                   ++ post |}.
  split; [|split; [|split; [|split; [|split; [|split; [|split]]]]]].
  - etrans; [|exact Hact].
    unfold apply. rewrite (bind_ok get _ _ _ _ eq_refl). cbv zeta.
    simpl host. simpl me. rewrite Hopen, Hy, Hgx.
    unfold Kalman_update, Controller_get_control, attr, when, print, emit,
      set_me, modify, lift, mret, prog_ret, mbind, prog_bind, get.
    subst pre. destruct (verbose m) eqn:Hv; simpl; rewrite HK; simpl;
      rewrite HK; simpl; f_equal; f_equal; by rewrite <- ?app_assoc.
  - done.
  - done.
  - done.
  - done.
  - done.
  - done.
  - intros Hxi. unfold emitted. simpl.
    rewrite <- app_assoc, drop_app_length.
    apply elem_of_app. right. by apply Hwarn.
Qed.




End Loop.

(** ** The loop on the sample days *)

Lemma toy_ready (k : Toy.filter_state) (G : Toy.gain) :
  ready (Toy.store_on 6 k G) k (replicate 11 (1 / num 50)) (1 / num 50)
    Toy.layers 2 1 (num 3) 6.
Proof.
  split; try reflexivity; try done.
  intros key Hkey. unfold controller_intervention.layer_keys in Hkey.
  repeat (apply elem_of_cons in Hkey as [->|Hkey]; [by eexists|]).
  by apply elem_of_nil in Hkey.
Qed.


(** The warm-up day of the sample host leaves the layers alone. *)
Lemma open_loop_changes_estimator_only_witness :
  let run := @controller_intervention.apply _ _ _ _ Toy.natural_power in
  controller_intervention.open_loop Toy.warm_up = true
  ∧ controller_intervention.pars_beta_layer
      (controller_intervention.host (run Toy.warm_up).1) = Toy.layers.
Proof.
  intros run. split; [reflexivity|].
  destruct (@open_loop_changes_estimator_only _ _ _ _ Toy.natural_power
              Toy.warm_up eq_refl) as (_ & _ & Hlayers).
  exact Hlayers.
Defined.








(** * Further properties *)

(** ** Where [TransitionMatrix.full] puts the values *)

Lemma tril_pairs_S n :
  np.tril_pairs (S n) = np.tril_pairs n ++ (pair n <$> seq 0 (S n)).
Proof.
  unfold np.tril_pairs. rewrite seq_S, bind_app. f_equal.
  cbn [mbind list_bind]. by rewrite app_nil_r, seq_S.
Qed.

(** The pair [(i, j)] is number [i (i + 1) / 2 + j] of the lower triangle. *)
Lemma tril_pairs_positions n :
  (fun p => (tri p.1 + p.2)%nat) <$> np.tril_pairs n = seq 0 (tri n).
Proof.
  induction n as [|n IH]; [done|].
  rewrite tril_pairs_S, fmap_app, IH, <- list_fmap_compose.
  change (tri (S n)) with (tri n + S n)%nat. rewrite seq_app. f_equal.
  replace (seq (0 + tri n) (S n)) with (Nat.add (tri n) <$> seq 0 (S n)); [done|].
  rewrite fmap_add_seq. f_equal. lia.
Qed.

Lemma list_as_seq (v : list Qc) :
  v = (fun q => default 0 (v !! q)) <$> seq 0 (length v).
Proof.
  apply list_eq. intros q. rewrite list_lookup_fmap.
  destruct (decide (q < length v)%nat) as [Hq|Hq].
  - rewrite lookup_seq_lt by done. simpl.
    destruct (lookup_lt_is_Some_2 v q Hq) as [x Hx]. by rewrite Hx.
  - rewrite lookup_seq_ge by lia. simpl. apply lookup_ge_None. lia.
Qed.

Lemma entry_reshape r c (flat : list Qc) i j :
  length flat = (r * c)%nat → (i < r)%nat → (j < c)%nat →
  entry (np.reshape r c flat) i j = flat !! (i * c + j)%nat.
Proof.
  intros Hlen Hi Hj. unfold entry, np.reshape.
  rewrite list_lookup_fmap, lookup_seq_lt by done. simpl.
  by rewrite lookup_take_lt, lookup_drop by done.
Qed.

(** The matrix that [full] returns for the values [g] reads off the index
    pairs of the lower triangle. *)
Lemma full_of_pairs n (g : nat * nat → Qc) :
  ∃ M, TransitionMatrix.full (g <$> np.tril_pairs n) = Ok M
       ∧ is_matrix n n M
       ∧ ∀ i j, (i < n)%nat → (j < n)%nat →
           entry M i j = Some (if decide (j ≤ i)%nat then g (i, j) else 0).
Proof.
  destruct n as [|n'].
  { exists []. split; [done|]. split; [by split|]. intros; lia. }
  set (n := S n').
  unfold TransitionMatrix.full.
  rewrite length_fmap, length_tril_pairs, order_tri, shape_zeros, tril_ravel.
  cbn [mbind outcome_bind]. unfold np.put.
  rewrite decide_False; cycle 1.
  { intros [_ Hsz]. unfold np.size in Hsz.
    rewrite nrows_zeros, ncols_zeros in Hsz. subst n. lia. }
  rewrite decide_False; cycle 1.
  { intros Hnil. apply (f_equal length) in Hnil.
    rewrite length_fmap, length_tril_pairs in Hnil. subst n. simpl in Hnil. lia. }
  rewrite ravel_zeros.
  set (f := fun p : nat * nat => (p.1 * n + p.2)%nat).
  assert (Hrange : ∀ p, p ∈ np.tril_pairs n →
            (f p < length (replicate (n * n) (0 : Qc)))%nat).
  { intros [i j] Hp. apply elem_of_tril_pairs in Hp. rewrite length_replicate.
    unfold f. simpl. nia. }
  rewrite (put_from_pairs f g [] (np.tril_pairs n)) by (by apply Forall_forall).
  cbn [mbind outcome_bind]. rewrite nrows_zeros, ncols_zeros.
  set (flat := foldl _ _ _).
  assert (Hflat : length flat = (n * n)%nat).
  { unfold flat. by rewrite length_foldl_insert, length_replicate. }
  eexists. split; [done|]. split; [by apply reshape_is_matrix|].
  intros i j Hi Hj. rewrite entry_reshape by done.
  destruct (decide (j ≤ i)%nat) as [Hji|Hji].
  - change (i * n + j)%nat with (f (i, j)). unfold flat.
    apply foldl_insert_hit; [|done|apply elem_of_tril_pairs; lia].
    intros [i1 j1] [i2 j2] H1 H2 Heq.
    apply elem_of_tril_pairs in H1. apply elem_of_tril_pairs in H2.
    unfold f in Heq. simpl in Heq.
    destruct (flat_index_inj n i1 j1 i2 j2) as [-> ->]; [lia|lia|done|done].
  - unfold flat. rewrite foldl_insert_miss.
    + apply lookup_replicate_2. nia.
    + intros [i' j'] Hp Heq. apply elem_of_tril_pairs in Hp.
      unfold f in Heq. simpl in Heq.
      destruct (flat_index_inj n i' j' i j) as [-> ->]; [lia|lia|done|lia].
Qed.

Lemma tri_position_lt n i j : (j ≤ i < n)%nat → (tri i + j < tri n)%nat.
Proof.
  intros Hij. assert (Hmono : ∀ a b, (a ≤ b)%nat → (tri a ≤ tri b)%nat).
  { intros a b Hab. induction Hab; simpl; lia. }
  pose proof (Hmono (S i) n ltac:(lia)). simpl in *. lia.
Qed.

(** Every list of values, read through the index pairs. *)
Lemma values_of_pairs (p : list Qc) :
  let n := TransitionMatrix.order (length p) in
  take (tri n) p
  = (fun q => default 0 (p !! (tri q.1 + q.2)%nat)) <$> np.tril_pairs n.
Proof.
  intros n. pose proof (order_spec (length p)) as [Hlo _]. fold n in Hlo.
  rewrite (list_as_seq (take (tri n) p)) at 1.
  rewrite length_take, Nat.min_l by done.
  rewrite <- tril_pairs_positions, <- list_fmap_compose.
  apply Forall_fmap_ext_1, Forall_forall. intros [i j] Hp. apply elem_of_tril_pairs in Hp.
  simpl. by rewrite lookup_take_lt by (by apply tri_position_lt).
Qed.

(** X1. For every list of values [full] returns a lower-triangular matrix:
    value number [i (i + 1) / 2 + j] of the list is the entry of row [i] and
    column [j <= i], and nothing is ever written above the diagonal. *)
Theorem full_is_lower_triangular (p : list Qc) :
  let n := TransitionMatrix.order (length p) in
  ∃ M, TransitionMatrix.full p = Ok M
       ∧ lower_triangular n M
       ∧ ∀ i j, (j ≤ i < n)%nat → entry M i j = p !! (tri i + j)%nat
                                  ∧ is_Some (p !! (tri i + j)%nat).
Proof.
  intros n. pose proof (order_spec (length p)) as [Hlo _]. fold n in Hlo.
  destruct (full_of_pairs n
              (fun q => default 0 (p !! (tri q.1 + q.2)%nat)))
    as (M & HM & Hshape & Hent).
  pose proof (values_of_pairs p) as Hv. cbv zeta in Hv. fold n in Hv.
  rewrite <- Hv in HM. unfold n in HM. rewrite <- full_take in HM.
  exists M. split; [done|]. split; [split; [done|]|].
  - intros i j x Hij Hx. destruct Hshape as [Hlen Hrows].
    assert (Hi : (i < n)%nat).
    { unfold entry in Hx. destruct (M !! i) eqn:Hrow; [|done].
      apply lookup_lt_Some in Hrow. lia. }
    assert (Hj : (j < n)%nat).
    { unfold entry in Hx. destruct (M !! i) as [row|] eqn:Hrow; [|done].
      simpl in Hx. apply lookup_lt_Some in Hx.
      by rewrite (Forall_lookup_1 _ _ _ _ Hrows Hrow) in Hx. }
    rewrite (Hent i j Hi Hj), decide_False in Hx by lia. by simplify_eq.
  - intros i j Hij.
    assert (Hpos : (tri i + j < length p)%nat).
    { pose proof (tri_position_lt n i j Hij). lia. }
    destruct (lookup_lt_is_Some_2 p _ Hpos) as [x Hx].
    rewrite (Hent i j) by lia. rewrite decide_True by lia. simpl.
    rewrite Hx. by split; [|eexists].
Qed.

(** X2. Flattening the matrix that [full] returns gives back the values it
    was built from: the first [n (n + 1) / 2] of them, which is all of them
    when their number is triangular; with the values [full] did not read
    appended, the flattening is the input again. *)
Theorem tril_flatten_full (p : list Qc) :
  let n := TransitionMatrix.order (length p) in
  ∃ M, TransitionMatrix.full p = Ok M
       ∧ TransitionMatrix.tril_flatten M = take (tri n) p
       ∧ TransitionMatrix.tril_flatten M ++ drop (tri n) p = p.
Proof.
  intros n.
  destruct (full_of_pairs n
              (fun q => default 0 (p !! (tri q.1 + q.2)%nat)))
    as (M & HM & Hshape & Hent).
  pose proof (values_of_pairs p) as Hv. cbv zeta in Hv. fold n in Hv.
  rewrite <- Hv in HM. unfold n in HM. rewrite <- full_take in HM.
  assert (Hflat : TransitionMatrix.tril_flatten M = take (tri n) p).
  { rewrite (tril_flatten_pairs n M Hshape), Hv.
    apply Forall_fmap_ext_1, Forall_forall. intros [i j] Hp.
    apply elem_of_tril_pairs in Hp. simpl.
    rewrite (Hent i j) by lia. by rewrite decide_True by lia. }
  exists M. split; [done|]. split; [done|].
  rewrite Hflat. apply take_drop.
Qed.

(** ** What the observability check needs and what it does on the full
       system *)

(** X4. The check reads [self.A], then [self.C], then [self.nEIR]: without
    [A] it raises [AttributeError]; with the constructor's default [C = None]
    it raises [TypeError]; with both arrays and no [nEIR] -- an attribute no
    method of the class assigns -- it raises [AttributeError].  In each case
    the instance is left as it was. *)
Theorem check_observability_preconditions `{Rank} (EIonly : bool) :
  (∀ self : SEIR.obj,
     SEIR.check_observability EIonly (delete "A" self)
     = (delete "A" self, Raise AttributeError))
  ∧ (∀ (self : SEIR.obj) (A : np.matrix),
       let self' := <["A" := SEIR.VMat A]> (<["C" := SEIR.VNone]> self) in
       SEIR.check_observability EIonly self' = (self', Raise TypeError))
  ∧ (∀ (self : SEIR.obj) (A C : np.matrix),
       let self' := <["A" := SEIR.VMat A]>
                      (<["C" := SEIR.VMat C]> (delete "nEIR" self)) in
       SEIR.check_observability EIonly self' = (self', Raise AttributeError)).
Proof.
  split; [|split].
  - intros self.
    unfold SEIR.check_observability, mbind, prog_bind, SEIR.getattr.
    by rewrite lookup_delete_eq.
  - intros self A self'.
    unfold SEIR.check_observability, mbind, prog_bind, SEIR.getattr, lift.
    unfold self'. rewrite lookup_insert_eq. simpl.
    by rewrite lookup_insert_ne, lookup_insert_eq by done.
  - intros self A C self'.
    unfold SEIR.check_observability, mbind, prog_bind, SEIR.getattr, lift.
    unfold self'. rewrite lookup_insert_eq. simpl.
    rewrite lookup_insert_ne, lookup_insert_eq by done. simpl.
    by rewrite !lookup_insert_ne, lookup_delete_eq by done.
Qed.

(** X5. Called with [EIonly=False] the check takes [A] and [C] whole.  On
    an instance with an [m] by [m] matrix [A], with the observation row that
    lines 51-52 write as [C] (an [np.matrix] of [m] entries, ones between
    two zeros) and with the count [n >= 1] in [nEIR], it stacks
    [C; C·A; ...; C·A^(n-1)], an [n] by [m] matrix, returns it when its rank
    is [n] and raises [AssertionError] otherwise. *)
Theorem check_observability_full_system `{Rank} (self : SEIR.obj)
    (A : np.matrix) (m n : nat) :
  (1 ≤ n)%nat → (2 ≤ m)%nat →
  is_matrix m m A →
  self !! "A" = Some (SEIR.VMat A) →
  self !! "C" = Some (SEIR.VMat (SEIR.C_of m)) →
  self !! "nEIR" = Some (SEIR.VInt (Z.of_nat n)) →
  let O := observability_matrix (SEIR.C_of m) A n in
  is_matrix n m O
  ∧ SEIR.check_observability false self
    = (self, if decide (matrix_rank O = n) then Ok O else Raise AssertionError).
Proof.
  intros Hn Hm HA HsA HsC Hsn.
  assert (HC : is_matrix 1 m (SEIR.C_of m)).
  { split; [done|]. repeat constructor. simpl.
    rewrite length_app, length_replicate. simpl. lia. }
  assert (Hm1 : (1 ≤ m)%nat) by lia.
  revert HsC HC. generalize (SEIR.C_of m). intros C HsC HC O.
  split; [by apply observability_matrix_is_matrix|].
  unfold SEIR.check_observability, mbind, prog_bind, SEIR.getattr, lift.
  rewrite HsA. simpl. rewrite HsC. simpl. rewrite Hsn. simpl.
  rewrite !list_fmap_id.
  replace (Z.to_nat (Z.of_nat n - 1)) with (n - 1)%nat by lia.
  change [C] with (times_power C A <$> seq 0 1).
  rewrite (obs_loop_powers m) by done.
  replace (1 + (n - 1))%nat with n by lia.
  rewrite (vstack_rows m); cycle 1.
  { destruct n; [lia|]. rewrite seq_S, fmap_snoc. by destruct (_ <$> seq 0 n). }
  { apply Forall_fmap, Forall_forall. intros i _. simpl.
    by apply times_power_is_matrix. }
  fold (observability_matrix C A n). fold O.
  rewrite Hsn. unfold SEIR.rank_equals, mret, prog_ret, raise.
  destruct (decide (matrix_rank O = n)) as [Hrank|Hrank].
  - by rewrite bool_decide_eq_true_2 by lia.
  - by rewrite bool_decide_eq_false_2 by lia.
Qed.

(** The full one-stage model with the count 2: the two rows [C] and [C·A]
    are independent and the stack is returned. *)
Lemma check_observability_full_system_witness :
  @SEIR.check_observability gauss_rank false (Sample.model Sample.A1 2)
  = (Sample.model Sample.A1 2,
     Ok (observability_matrix (SEIR.C_of 4) Sample.A1 2)).
Proof.
  destruct (@check_observability_full_system gauss_rank
              (Sample.model Sample.A1 2) Sample.A1 4 2)
    as [_ Hrun].
  - lia.
  - lia.
  - split; [reflexivity|repeat constructor].
  - reflexivity.
  - reflexivity.
  - reflexivity.
  - rewrite Hrun. reflexivity.
Defined.

(** X6. With a count of at most 1 in [nEIR] the loop body never runs: no
    product with [A] is formed, whatever the shape of [A], and the check
    compares the rank of the observation row alone with the count. *)
Theorem check_observability_without_products `{Rank} (EIonly : bool)
    (self : SEIR.obj) (A C : np.matrix) (z : Z) :
  (z ≤ 1)%Z →
  self !! "A" = Some (SEIR.VMat A) →
  self !! "C" = Some (SEIR.VMat C) →
  self !! "nEIR" = Some (SEIR.VInt z) →
  let C' := if EIonly then np.inner_cols C else C in
  SEIR.check_observability EIonly self
  = (self, if decide (Z.of_nat (matrix_rank C') = z)
           then Ok C' else Raise AssertionError).
Proof.
  intros Hz HsA HsC Hsn C'.
  unfold SEIR.check_observability, mbind, prog_bind, SEIR.getattr, lift.
  rewrite HsA. simpl. rewrite HsC. simpl. rewrite Hsn. simpl.
  replace (Z.to_nat (z - 1)) with 0%nat by lia. simpl.
  rewrite app_nil_r.
  assert (HC' : (fun l : list Qc => if EIonly then np.inner l else l) <$> C
                = C').
  { unfold C', np.inner_cols. destruct EIonly; [done|apply list_fmap_id]. }
  rewrite HC'. rewrite Hsn. unfold SEIR.rank_equals, mret, prog_ret, raise.
  destruct (decide (Z.of_nat (matrix_rank C') = z)) as [Hrank|Hrank].
  - by rewrite bool_decide_eq_true_2.
  - by rewrite bool_decide_eq_false_2.
Qed.

(** One observed compartment: the row [0 1 0] has an inner part of rank 1. *)
Lemma check_observability_without_products_witness :
  @SEIR.check_observability gauss_rank true (Sample.model Sample.A1 1)
  = (Sample.model Sample.A1 1, Ok [[1]]).
Proof.
  rewrite (@check_observability_without_products gauss_rank true
             (Sample.model Sample.A1 1) Sample.A1 (SEIR.C_of 3) 1).
  - reflexivity.
  - lia.
  - reflexivity.
  - reflexivity.
  - reflexivity.
Defined.

(** ** Single days of the loop: edges and errors *)

Section Days.
Import controller_intervention.
Context {K Ct : Type} `{Estimator K} `{Feedback Ct} `{Power}.

(** A closed-loop day up to the point where the rates are computed. *)
Lemma apply_enters_actuate (σ : store K Ct) (k : K) (y x : Qc) :
  Kalman (me σ) = Some k →
  getitem (results_n_exposed (host σ)) (t (host σ) - 1) = Ok y →
  getitem (results_new_infections (host σ)) (t (host σ) - 1) = Ok x →
  open_loop σ = false →
  let I := infectious (host σ) in
  let Xu := EIhat k ++ [integrated_err (me σ)] in
  let u := maximum (get_control (Controller (me σ)) Xu) 0 in
  apply σ
  = actuate u y
      {| host := host σ;
         me := with_Kalman (me σ) (update k (y - I) I u);
         log := log σ ++ day_header σ x
                ++ [GetControl Xu; KalmanUpdate (y - I) I u] |}.
Proof.
  intros HK Hy Hx Hopen I Xu u.
  unfold apply. rewrite (bind_ok get _ _ _ _ eq_refl). cbv zeta.
  rewrite Hopen, Hy, Hx.
  unfold Kalman_update, Controller_get_control, attr, when, print, emit,
    set_me, modify, lift, mret, prog_ret, mbind, prog_bind, get, day_header.
  destruct σ as [s m l]. simpl in *.
  destruct (verbose m) eqn:Hv; simpl; rewrite HK; simpl;
    rewrite HK; simpl; by rewrite <- ?app_assoc.
Qed.

(** X7. An open-loop day, in full: [apply] returns, the estimator has taken
    one update with the exposed count of the previous day minus the
    infectious, the infectious count and the recorded new infections, and
    the log holds that one call, after the two lines printed when [verbose]
    is set.  Nothing else in the store has changed. *)
Theorem open_loop_day (σ : store K Ct) (k : K) (y x : Qc) :
  Kalman (me σ) = Some k →
  getitem (results_n_exposed (host σ)) (t (host σ) - 1) = Ok y →
  getitem (results_new_infections (host σ)) (t (host σ) - 1) = Ok x →
  open_loop σ = true →
  let I := infectious (host σ) in
  apply σ
  = ({| host := host σ;
        me := with_Kalman (me σ) (update k (y - I) I x);
        log := log σ ++ day_header σ x ++ [KalmanUpdate (y - I) I x] |},
     Ok tt).
Proof.
  intros HK Hy Hx Hopen I.
  unfold apply. rewrite (bind_ok get _ _ _ _ eq_refl). cbv zeta.
  rewrite Hopen, Hy, Hx.
  unfold Kalman_update, attr, when, print, emit,
    set_me, modify, lift, mret, prog_ret, mbind, prog_bind, get, day_header.
  destruct σ as [s m l]. simpl in *.
  destruct (verbose m) eqn:Hv; simpl; rewrite HK; simpl;
    by rewrite <- ?app_assoc.
Qed.

(** X8. Before [initialize] has run there is no estimator: once the results
    of the previous day are read, [apply] raises [AttributeError] in either
    regime, with no call made and nothing changed but the lines printed. *)
Theorem apply_before_initialize (σ : store K Ct) (y x : Qc) :
  Kalman (me σ) = None →
  getitem (results_n_exposed (host σ)) (t (host σ) - 1) = Ok y →
  getitem (results_new_infections (host σ)) (t (host σ) - 1) = Ok x →
  apply σ
  = ({| host := host σ; me := me σ; log := log σ ++ day_header σ x |},
     Raise AttributeError).
Proof.
  intros HK Hy Hx.
  unfold apply. rewrite (bind_ok get _ _ _ _ eq_refl). cbv zeta.
  rewrite Hy, Hx.
  unfold Kalman_update, Controller_get_control, attr, when, print, emit,
    set_me, modify, lift, raise, mret, prog_ret, mbind, prog_bind, get,
    day_header.
  destruct σ as [s m l]. simpl in *.
  destruct (verbose m) eqn:Hv, (open_loop _); simpl; rewrite HK; simpl;
    by rewrite <- ?app_assoc, ?app_nil_r.
Qed.

(** X9. On a day whose predecessor has no slot in [results['n_exposed']]
    (the array is too short for [t - 1], from either end) [apply] raises
    [IndexError] before it reads or calls anything else. *)
Theorem apply_without_results (σ : store K Ct) :
  let n := Z.of_nat (length (results_n_exposed (host σ))) in
  (n ≤ t (host σ) - 1 ∨ t (host σ) - 1 < - n)%Z →
  apply σ
  = ({| host := host σ; me := me σ;
        log := log σ ++ (if verbose (me σ)
                         then [Print (MsgDay (t (host σ)))] else []) |},
     Raise IndexError).
Proof.
  intros n Hout.
  assert (Hy : getitem (results_n_exposed (host σ)) (t (host σ) - 1)
               = Raise IndexError).
  { unfold getitem, py_pos. cbv zeta. fold n.
    rewrite (decide_False (P := (0 ≤ _ < n)%Z)); [done|].
    case_decide; lia. }
  unfold apply. rewrite (bind_ok get _ _ _ _ eq_refl). cbv zeta.
  rewrite Hy.
  unfold when, print, emit, modify, lift, raise, mret, prog_ret, mbind,
    prog_bind, get.
  destruct σ as [s m l]. simpl in *.
  destruct (verbose m) eqn:Hv; simpl; by rewrite ?app_nil_r.
Qed.

(** X10. On day 0 the index [t - 1] is [-1], which Python counts from the
    end: the exposed count and the new infections that [apply] reads are the
    last entries of the result arrays, and this is what the estimator is
    updated with. *)
Theorem day_zero_reads_last_entries (σ : store K Ct) (k : K)
    (ys xs : list Qc) (y x : Qc) :
  t (host σ) = 0%Z →
  Kalman (me σ) = Some k →
  results_n_exposed (host σ) = ys ++ [y] →
  results_new_infections (host σ) = xs ++ [x] →
  let I := infectious (host σ) in
  ∃ u, KalmanUpdate (y - I) I u ∈ emitted σ (apply σ).1
       ∧ (open_loop σ = true → u = x).
Proof.
  intros Ht HK Hys Hxs I.
  assert (Hlast : ∀ (l : list Qc) (z : Qc), getitem (l ++ [z]) (0 - 1) = Ok z).
  { intros l z. unfold getitem, py_pos. cbv zeta.
    rewrite length_app. cbn [length].
    rewrite (decide_True (P := (0 - 1 < 0)%Z)) by lia.
    rewrite decide_True by lia. cbn [mbind option_bind].
    replace (Z.to_nat (0 - 1 + Z.of_nat (length l + 1))) with (length l) by lia.
    by rewrite lookup_app_r, Nat.sub_diag by lia. }
  destruct (apply_log σ k y x HK) as (pre & post & _ & _ & Hem).
  { rewrite Ht, Hys. apply Hlast. }
  { rewrite Ht, Hxs. apply Hlast. }
  fold I in Hem. rewrite Hem.
  destruct (open_loop σ).
  - exists x. split; [|done].
    apply elem_of_app. right. apply elem_of_app. left. by left.
  - eexists. split; [|intros; discriminate].
    apply elem_of_app. right. apply elem_of_app. left. right. left.
Qed.

End Days.

(** ** What [apply] never writes *)

Section Writes.
Import controller_intervention.
Context {K Ct : Type} `{Estimator K} `{Feedback Ct} `{Power}.

Lemma writes_within_refl (σ : store K Ct) : writes_within σ σ.
Proof. repeat split. exists []. by rewrite app_nil_r. Qed.

Lemma writes_within_trans (σ1 σ2 σ3 : store K Ct) :
  writes_within σ1 σ2 → writes_within σ2 σ3 → writes_within σ1 σ3.
Proof.
  intros (a1 & a2 & a3 & a4 & a5 & a6 & a7 & a8 & a9 & a10 & a11 & a12 & a13
          & a14 & a15 & a16 & a17 & a18 & e1 & He1)
         (b1 & b2 & b3 & b4 & b5 & b6 & b7 & b8 & b9 & b10 & b11 & b12 & b13
          & b14 & b15 & b16 & b17 & b18 & e2 & He2).
  repeat split; try congruence.
  - intros key Hkey. by rewrite b10, a10.
  - exists (e1 ++ e2). by rewrite He2, He1, app_assoc.
Qed.

Lemma stays_bind {A B} (c : prog (store K Ct) A) (f : A → prog (store K Ct) B) :
  stays_within c → (∀ a, stays_within (f a)) → stays_within (c ≫= f).
Proof.
  intros Hc Hf σ. unfold mbind, prog_bind. specialize (Hc σ).
  destruct (c σ) as [σ' [a|e]]; simpl in *; [|done].
  eapply writes_within_trans; [exact Hc|apply Hf].
Qed.

Lemma stays_silent {A} (c : prog (store K Ct) A) :
  (∀ σ, (c σ).1 = σ) → stays_within c.
Proof. intros Hc σ. rewrite Hc. apply writes_within_refl. Qed.

Lemma stays_lift {A} (x : outcome A) : stays_within (lift x : prog (store K Ct) A).
Proof. by apply stays_silent. Qed.

Lemma stays_ret {A} (a : A) : stays_within (mret a : prog (store K Ct) A).
Proof. by apply stays_silent. Qed.

Lemma stays_raise {A} e : stays_within (raise e : prog (store K Ct) A).
Proof. by apply stays_silent. Qed.

Lemma stays_get : stays_within (get : prog (store K Ct) _).
Proof. by apply stays_silent. Qed.

Lemma stays_attr {A} (f : self K Ct → option A) : stays_within (attr f).
Proof.
  apply stays_silent. intros σ. unfold attr, mbind, prog_bind, get.
  by destruct (f (me σ)).
Qed.

Lemma stays_the_u_k : stays_within (the_u_k (K := K) (Ct := Ct)).
Proof.
  apply stays_silent. intros σ. unfold the_u_k, mbind, prog_bind, get.
  by destruct (u_k (me σ)).
Qed.

Lemma stays_Ipow : stays_within (Ipow (K := K) (Ct := Ct)).
Proof.
  apply stays_silent. intros σ. unfold Ipow, mbind, prog_bind, get.
  destruct (SEIR.getattr _ _) as [? [[]|]]; done.
Qed.

Lemma stays_emit e : stays_within (emit (K := K) (Ct := Ct) e).
Proof. intros σ. repeat split. by exists [e]. Qed.

Lemma stays_when b (c : prog (store K Ct) unit) :
  stays_within c → stays_within (when b c).
Proof. destruct b; [done|]. intros _. apply stays_ret. Qed.

Lemma stays_for_each {A} (l : list A) (body : A → prog (store K Ct) unit) :
  (∀ x, x ∈ l → stays_within (body x)) → stays_within (for_each l body).
Proof.
  induction l as [|x l IH]; intros Hbody; [apply stays_ret|].
  cbn [for_each]. apply stays_bind; [apply Hbody; by left|].
  intros _. apply IH. intros x' Hx'. apply Hbody. by right.
Qed.

Lemma stays_Kalman_update E I u :
  stays_within (Kalman_update (K := K) (Ct := Ct) E I u).
Proof.
  unfold Kalman_update. apply stays_bind; [apply stays_attr|]. intros k.
  apply stays_bind; [apply stays_emit|]. intros _.
  intros σ. repeat split. exists []. simpl. by rewrite app_nil_r.
Qed.

Lemma stays_get_control Xu :
  stays_within (Controller_get_control (K := K) (Ct := Ct) Xu).
Proof.
  unfold Controller_get_control. apply stays_bind; [apply stays_get|].
  intros σ. apply stays_bind; [apply stays_emit|]. intros _. apply stays_ret.
Qed.

Lemma stays_set_integrated_err x :
  stays_within (set_integrated_err (K := K) (Ct := Ct) x).
Proof. intros σ. repeat split. exists []. simpl. by rewrite app_nil_r. Qed.

Lemma stays_set_beta_layer lkey v :
  lkey ∈ layer_keys → stays_within (set_beta_layer (K := K) (Ct := Ct) lkey v).
Proof.
  intros Hin σ. repeat split.
  - intros key Hkey. simpl. apply lookup_insert_ne. by intros ->.
  - exists []. simpl. by rewrite app_nil_r.
Qed.

Lemma stays_scale_layer nb lkey :
  lkey ∈ layer_keys → stays_within (scale_layer (K := K) (Ct := Ct) nb lkey).
Proof.
  intros Hin. unfold scale_layer.
  apply stays_bind; [apply stays_attr|]. intros bl0.
  apply stays_bind; [apply stays_lift|]. intros b.
  apply stays_bind; [apply stays_attr|]. intros b0.
  apply stays_bind; [apply stays_lift|]. intros v.
  by apply stays_set_beta_layer.
Qed.

Lemma stays_new_rate u xs N xi :
  stays_within (new_rate (K := K) (Ct := Ct) u xs N xi).
Proof.
  unfold new_rate. apply stays_bind; [apply stays_get|]. intros σ.
  destruct (decide (0 < xi)).
  - apply stays_bind; [apply stays_Ipow|]. intros p.
    apply stays_bind; [apply stays_lift|]. intros q1.
    apply stays_bind; [apply stays_lift|]. intros q2.
    apply stays_bind; [apply stays_when, stays_emit|]. intros _.
    apply stays_lift.
  - apply stays_bind; [apply stays_emit|]. intros _. apply stays_attr.
Qed.

(** [self.u_k[i] = v]: the array keeps its length. *)
Lemma stays_store_u_k {A} (i : Z) (v : Qc) (rest : prog (store K Ct) A) :
  stays_within rest →
  stays_within (uk ← the_u_k; uk' ← lift (setitem uk i v); set_u_k uk';; rest).
Proof.
  intros Hrest σ.
  unfold the_u_k, setitem, set_u_k, set_me, modify, lift, raise, mbind,
    prog_bind, get, mret, prog_ret.
  destruct (u_k (me σ)) as [uk|] eqn:Huk; [|apply writes_within_refl].
  destruct (py_pos uk i) as [slot|]; [|apply writes_within_refl].
  eapply writes_within_trans; [|apply Hrest].
  repeat split.
  - simpl. by rewrite Huk, length_insert.
  - exists []. simpl. by rewrite app_nil_r.
Qed.

Lemma stays_actuate u y : stays_within (actuate (K := K) (Ct := Ct) u y).
Proof.
  unfold actuate. apply stays_bind; [apply stays_get|]. intros σ.
  apply stays_bind; [apply stays_attr|]. intros k.
  apply stays_bind; [apply stays_new_rate|]. intros nb.
  apply stays_bind.
  { apply stays_for_each. intros key Hkey. by apply stays_scale_layer. }
  intros _. apply stays_store_u_k.
  apply stays_bind.
  { apply stays_when. apply stays_bind; [apply stays_emit|]. intros _.
    apply stays_bind; [apply stays_lift|]. intros n_exp.
    apply stays_bind; [apply stays_lift|]. intros tg. apply stays_emit. }
  intros _. apply stays_bind; [apply stays_lift|]. intros tg.
  apply stays_set_integrated_err.
Qed.

(** X11. Whatever the store and whether it returns or raises, [apply]
    writes only the rates of the layers h, s, w, c and l, the estimator,
    entries of [u_k], the integral error and the log: the global [beta], the
    rate of every other layer, the results and the people of the host, and
    the intervention's targets, model, start day, controller, [beta0] and
    [beta_layer0] are as before, and [u_k] keeps its length. *)
Theorem apply_writes_within (σ : store K Ct) : writes_within σ (apply σ).1.
Proof.
  revert σ. change (stays_within (apply (K := K) (Ct := Ct))).
  unfold apply. apply stays_bind; [apply stays_get|]. intros σ.
  apply stays_bind; [apply stays_when, stays_emit|]. intros _.
  apply stays_bind; [apply stays_lift|]. intros y.
  apply stays_bind.
  { apply stays_when. apply stays_bind; [apply stays_lift|]. intros x.
    apply stays_emit. }
  intros _. destruct (open_loop σ).
  - apply stays_bind; [apply stays_lift|]. intros u.
    apply stays_Kalman_update.
  - apply stays_bind; [apply stays_attr|]. intros k.
    apply stays_bind; [apply stays_get_control|]. intros u.
    apply stays_bind; [apply stays_Kalman_update|]. intros _.
    apply stays_actuate.
Qed.

End Writes.

(** ** Missing keys *)

Section Keys.
Import controller_intervention.
Context {K Ct : Type} `{Estimator K} `{Feedback Ct} `{Power}.

Lemma bind_raise {Σ A B} (c : prog Σ A) (f : A → prog Σ B) σ σ' e :
  c σ = (σ', Raise e) → (c ≫= f) σ = (σ', Raise e).
Proof. intros Hc. unfold mbind, prog_bind. by rewrite Hc. Qed.

Lemma for_each_app {Σ A} (l1 l2 : list A) (body : A → prog Σ unit) σ σ' :
  for_each l1 body σ = (σ', Ok tt) →
  for_each (l1 ++ l2) body σ = for_each l2 body σ'.
Proof.
  revert σ. induction l1 as [|x l1 IH]; intros σ Hrun.
  { unfold for_each, mret, prog_ret in Hrun. by simplify_eq. }
  cbn [for_each app] in *. unfold mbind, prog_bind in *.
  destruct (body x σ) as [σ1 [[]|e]]; [|done]. by apply IH.
Qed.

(** The loop over the layers stops at the first key that [beta_layer0] does
    not have. *)
Lemma layers_loop_stops pre key rest (s : sim) (m : self K Ct) l nb bl0 b0 :
  beta_layer0 m = Some bl0 → beta0 m = Some b0 → b0 ≠ 0 →
  (∀ key', key' ∈ pre → is_Some (bl0 !! key')) →
  bl0 !! key = None →
  ∃ bl',
    for_each (pre ++ key :: rest) (scale_layer nb)
      {| host := s; me := m; log := l |}
    = ({| host := with_beta_layer s bl'; me := m; log := l |}, Raise KeyError)
    ∧ (∀ key', key' ∈ pre → bl' !! key' = (fun b => b * nb / b0) <$> bl0 !! key')
    ∧ (∀ key', key' ∉ pre → bl' !! key' = pars_beta_layer s !! key').
Proof.
  intros Hbl0 Hb0 Hnz Hpre Hkey.
  destruct (layers_loop pre s m l nb bl0 b0 Hbl0 Hb0 Hnz Hpre)
    as (bl' & Hrun & Hin & Hout).
  exists bl'. split; [|done].
  rewrite (for_each_app _ _ _ _ _ Hrun). cbn [for_each].
  apply bind_raise.
  unfold scale_layer, attr, lift, dict_get, raise, mbind, prog_bind, get.
  simpl. rewrite Hbl0. simpl. by rewrite Hkey.
Qed.

(** X12. A host whose layers lack one of h, s, w, c, l: on a closed-loop day
    [apply] raises [KeyError] at the first missing key, after the estimator
    has been updated and the layers named before it have been given their
    new rates.  The later layers, [u_k] and the integral error are not
    reached. *)
Theorem missing_layer_raises_KeyError (σ : store K Ct) (k : K)
    (b0 : Qc) (bl0 : gmap string Qc) (p y x : Qc)
    (pre rest : list string) (key : string) :
  Kalman (me σ) = Some k →
  beta0 (me σ) = Some b0 →
  beta_layer0 (me σ) = Some bl0 →
  the_SEIR (me σ) !! "Ipow" = Some (SEIR.VFloat p) →
  b0 ≠ 0 →
  scaled_pop_size (host σ) ≠ 0 →
  getitem (results_n_exposed (host σ)) (t (host σ) - 1) = Ok y →
  getitem (results_new_infections (host σ)) (t (host σ) - 1) = Ok x →
  open_loop σ = false →
  layer_keys = pre ++ key :: rest →
  (∀ key', key' ∈ pre → is_Some (bl0 !! key')) →
  bl0 !! key = None →
  let I := infectious (host σ) in
  let Xu := EIhat k ++ [integrated_err (me σ)] in
  let u := maximum (get_control (Controller (me σ)) Xu) 0 in
  let k' := update k (y - I) I u in
  let xi := early_weighted (Ihat k') in
  let nb := requested_rate u (susceptible (host σ)) (scaled_pop_size (host σ))
              xi p b0 in
  (0 < xi → power xi p ≠ 0) →
  ∃ σ',
    apply σ = (σ', Raise KeyError)
    ∧ Kalman (me σ') = Some k'
    ∧ (∀ key', key' ∈ pre →
         pars_beta_layer (host σ') !! key'
         = (fun b => b * nb / b0) <$> bl0 !! key')
    ∧ (∀ key', key' ∉ pre →
         pars_beta_layer (host σ') !! key' = pars_beta_layer (host σ) !! key')
    ∧ u_k (me σ') = u_k (me σ)
    ∧ integrated_err (me σ') = integrated_err (me σ).
Proof.
  intros HK Hb0 Hbl0 Hp Hnz HN Hy Hx Hopen Hsplit Hpre Hkey I Xu u k' xi nb Hpow.
  pose proof (proj1 (open_loop_false σ) Hopen) as (_ & HS & _).
  rewrite (apply_enters_actuate σ k y x HK Hy Hx Hopen).
  fold I Xu u k'.
  destruct σ as [s m l]. simpl in *.
  set (l2 := l ++ day_header {| host := s; me := m; log := l |} x
             ++ [GetControl Xu; KalmanUpdate (y - I) I u]).
  destruct (new_rate_run s (with_Kalman m k') l2 u (susceptible s)
              (scaled_pop_size s) xi p b0)
    as (ps & Hnr & _); [done..|].
  fold nb in Hnr.
  destruct (layers_loop_stops pre key rest s (with_Kalman m k') (l2 ++ ps)
              nb bl0 b0)
    as (bl' & Hloop & Hin & Hout); [done..|].
  eexists. split; [|split; [|split; [|split; [|split]]]].
  - unfold actuate.
    rewrite (bind_ok get _ _ _ _ eq_refl). cbv zeta. simpl host. simpl me.
    rewrite (bind_ok (attr Kalman) _ _ _ k') by (by apply attr_ok).
    fold xi. rewrite (bind_ok _ _ _ _ _ Hnr).
    rewrite Hsplit. apply bind_raise. exact Hloop.
  - done.
  - exact Hin.
  - exact Hout.
  - done.
  - done.
Qed.

(** X13. An intervention whose targets lack the key [infected]: a closed-loop
    day runs up to the update of the integral error and raises [KeyError]
    there.  By then the estimator is updated, the five layers have their new
    rates and [u_k] has recorded the new rate; the integral error is left as
    it was. *)
Theorem missing_target_raises_KeyError (σ : store K Ct) (k : K)
    (uk : list Qc) (b0 : Qc) (bl0 : gmap string Qc) (p y x : Qc) (slot : nat) :
  Kalman (me σ) = Some k →
  u_k (me σ) = Some uk →
  beta0 (me σ) = Some b0 →
  beta_layer0 (me σ) = Some bl0 →
  the_SEIR (me σ) !! "Ipow" = Some (SEIR.VFloat p) →
  b0 ≠ 0 →
  scaled_pop_size (host σ) ≠ 0 →
  (∀ key, key ∈ layer_keys → is_Some (bl0 !! key)) →
  getitem (results_n_exposed (host σ)) (t (host σ) - 1) = Ok y →
  getitem (results_new_infections (host σ)) (t (host σ) - 1) = Ok x →
  py_pos uk (t (host σ)) = Some slot →
  open_loop σ = false →
  targets (me σ) !! "infected" = None →
  let I := infectious (host σ) in
  let Xu := EIhat k ++ [integrated_err (me σ)] in
  let u := maximum (get_control (Controller (me σ)) Xu) 0 in
  let k' := update k (y - I) I u in
  let xi := early_weighted (Ihat k') in
  let nb := requested_rate u (susceptible (host σ)) (scaled_pop_size (host σ))
              xi p b0 in
  (0 < xi → power xi p ≠ 0) →
  ∃ σ',
    apply σ = (σ', Raise KeyError)
    ∧ Kalman (me σ') = Some k'
    ∧ (∀ key, key ∈ layer_keys →
         pars_beta_layer (host σ') !! key
         = (fun b => b * nb / b0) <$> bl0 !! key)
    ∧ u_k (me σ') = Some (<[slot := nb]> uk)
    ∧ integrated_err (me σ') = integrated_err (me σ).
Proof.
  intros HK Huk Hb0 Hbl0 Hp Hnz HN Hkeys Hy Hx Hslot Hopen Htg
    I Xu u k' xi nb Hpow.
  pose proof (proj1 (open_loop_false σ) Hopen) as (_ & HS & _).
  rewrite (apply_enters_actuate σ k y x HK Hy Hx Hopen).
  fold I Xu u k'.
  destruct σ as [s m l]. simpl in *.
  set (l2 := l ++ day_header {| host := s; me := m; log := l |} x
             ++ [GetControl Xu; KalmanUpdate (y - I) I u]).
  destruct (new_rate_run s (with_Kalman m k') l2 u (susceptible s)
              (scaled_pop_size s) xi p b0)
    as (ps & Hnr & _); [done..|].
  fold nb in Hnr.
  destruct (layers_loop layer_keys s (with_Kalman m k') (l2 ++ ps) nb bl0 b0)
    as (bl' & Hloop & Hin & Hout); [done..|].
  exists {| host := with_beta_layer s bl';
            me := with_u_k (with_Kalman m k') (<[slot := nb]> uk);
            log := (l2 ++ ps)
                   ++ (if verbose m then [Print (MsgAsking u)] else []) |}.
  split; [|split; [|split; [|split]]].
  - unfold actuate.
    rewrite (bind_ok get _ _ _ _ eq_refl). cbv zeta. simpl host. simpl me.
    rewrite (bind_ok (attr Kalman) _ _ _ k') by (by apply attr_ok).
    fold xi. rewrite (bind_ok _ _ _ _ _ Hnr).
    rewrite (bind_ok _ _ _ _ _ Hloop).
    rewrite (bind_ok the_u_k _ _ _ uk) by (by apply the_u_k_ok).
    unfold setitem. simpl t. rewrite Hslot.
    rewrite (bind_ok (lift _) _ _ _ _ eq_refl).
    rewrite (bind_ok (set_u_k _) _ _ _ _ eq_refl).
    unfold dict_get. rewrite Hy.
    cbn [targets verbose integrated_err with_Kalman]. rewrite Htg.
    destruct (verbose m); simpl;
      unfold print, emit, set_integrated_err, set_me, modify, lift, mret,
        prog_ret, mbind, prog_bind; simpl; by rewrite ?app_nil_r.
  - done.
  - exact Hin.
  - done.
  - done.
Qed.

End Keys.

(** ** The rates of a closed-loop day *)

Lemma Qc_div_nonneg (a b : Qc) : 0 ≤ a → 0 < b → 0 ≤ a / b.
Proof.
  intros Ha Hb. unfold Qcle, Qclt, Qcdiv, Qcmult, Qcinv in *. simpl in *.
  rewrite !Qred_correct. apply Qmult_le_0_compat; [done|].
  by apply Qlt_le_weak, Qinv_lt_0_compat.
Qed.

Lemma Qc_mult_nonneg (a b : Qc) : 0 ≤ a → 0 ≤ b → 0 ≤ a * b.
Proof.
  intros Ha Hb. unfold Qcle, Qcmult in *. simpl in *.
  rewrite !Qred_correct in *. by apply Qmult_le_0_compat.
Qed.

Lemma maximum_nonneg (a : Qc) : 0 ≤ maximum a 0.
Proof.
  unfold maximum. case_decide as Ha; [done|].
  apply Qclt_le_weak. by apply Qcnot_le_lt.
Qed.

Lemma requested_rate_nonneg `{Power} (u xs N xi p b0 : Qc) :
  0 < b0 → 0 ≤ requested_rate u xs N xi p b0.
Proof.
  intros Hb0. unfold requested_rate. case_decide.
  - apply Qc_div_nonneg; [apply maximum_nonneg|done].
  - by apply Qclt_le_weak.
Qed.

Section Rates.
Import controller_intervention.
Context {K Ct : Type} `{Estimator K} `{Feedback Ct} `{Power}.

(** X14. Rates never turn negative: when the original global rate is
    positive and no original layer rate is negative, a closed-loop day
    leaves each of the five layers with a rate of at least zero and records
    a rate of at least zero in [u_k], whatever the controller asked for and
    whatever the estimator says. *)
Theorem rates_stay_nonnegative (σ : store K Ct) k uk b0 bl0 tg p y slot :
  ready σ k uk b0 bl0 tg p y slot →
  open_loop σ = false →
  0 < b0 →
  (∀ key b, bl0 !! key = Some b → 0 ≤ b) →
  let I := infectious (host σ) in
  let Xu := EIhat k ++ [integrated_err (me σ)] in
  let u := maximum (get_control (Controller (me σ)) Xu) 0 in
  let xi := early_weighted (Ihat (update k (y - I) I u)) in
  (0 < xi → power xi p ≠ 0) →
  ∃ σ' nb,
    apply σ = (σ', Ok tt)
    ∧ u_k (me σ') = Some (<[slot := nb]> uk)
    ∧ 0 ≤ nb
    ∧ ∀ key b', key ∈ layer_keys →
        pars_beta_layer (host σ') !! key = Some b' → 0 ≤ b'.
Proof.
  intros Hready Hopen Hb0 Hbl0 I Xu u xi Hpow.
  destruct (apply_closed_loop σ k uk b0 bl0 tg p y slot Hready Hopen Hpow)
    as (σ' & Hrun & Hin & _ & _ & Huk & _).
  fold I Xu u xi in Hin, Huk.
  set (nb := requested_rate u (susceptible (host σ))
               (scaled_pop_size (host σ)) xi p b0) in *.
  assert (Hnb : 0 ≤ nb) by (by apply requested_rate_nonneg).
  exists σ', nb. split; [done|]. split; [done|]. split; [done|].
  intros key b' Hkey Hb'. rewrite (Hin key Hkey) in Hb'.
  destruct (bl0 !! key) as [b|] eqn:Hb; [|done]. simpl in Hb'.
  simplify_eq. apply Qc_div_nonneg; [|done].
  apply Qc_mult_nonneg; [by eapply Hbl0|done].
Qed.

(** X15. The new rates do not compound: they are computed from the rates
    that [initialize] recorded, so a closed-loop day gives the five layers
    the same rates, and leaves the same [u_k], estimator and integral error,
    whatever rates the layers of the host had when the day began. *)
Theorem rates_do_not_compound (σ : store K Ct) (bl : gmap string Qc)
    k uk b0 bl0 tg p y slot :
  ready σ k uk b0 bl0 tg p y slot →
  open_loop σ = false →
  let I := infectious (host σ) in
  let Xu := EIhat k ++ [integrated_err (me σ)] in
  let u := maximum (get_control (Controller (me σ)) Xu) 0 in
  let xi := early_weighted (Ihat (update k (y - I) I u)) in
  (0 < xi → power xi p ≠ 0) →
  let τ := {| host := with_beta_layer (host σ) bl; me := me σ; log := log σ |} in
  ∃ σ' τ',
    apply σ = (σ', Ok tt)
    ∧ apply τ = (τ', Ok tt)
    ∧ (∀ key, key ∈ layer_keys →
         pars_beta_layer (host τ') !! key = pars_beta_layer (host σ') !! key)
    ∧ u_k (me τ') = u_k (me σ')
    ∧ Kalman (me τ') = Kalman (me σ')
    ∧ integrated_err (me τ') = integrated_err (me σ').
Proof.
  intros Hready Hopen I Xu u xi Hpow τ.
  assert (Hready' : ready τ k uk b0 bl0 tg p y slot).
  { destruct Hready. by split. }
  assert (Hopen' : open_loop τ = false) by exact Hopen.
  destruct (apply_closed_loop σ k uk b0 bl0 tg p y slot Hready Hopen Hpow)
    as (σ' & Hrun & Hin & _ & _ & Huk & Herr & HK & _).
  destruct (apply_closed_loop τ k uk b0 bl0 tg p y slot Hready' Hopen' Hpow)
    as (τ' & Hrun' & Hin' & _ & _ & Huk' & Herr' & HK' & _).
  exists σ', τ'. split; [done|]. split; [done|].
  split; [|split; [|split]].
  - intros key Hkey. rewrite (Hin key Hkey), (Hin' key Hkey). done.
  - by rewrite Huk, Huk'.
  - by rewrite HK, HK'.
  - by rewrite Herr, Herr'.
Qed.

(** X16. [initialize] on every store: it writes [beta0] and [beta_layer0]
    from the host's parameters first; with [n_days + 1 >= 0] it then fills
    [u_k] with [n_days + 1] copies of the host's [beta], creates the
    estimator from the number of people exposed, and returns; with a smaller
    [n_days] it raises [ValueError] with [u_k] and the estimator as they
    were.  The host, the log and the integral error are the same after as
    before, also when an intervention is initialised again. *)
Theorem initialize_writes (σ : store K Ct) :
  let σ' := (initialize σ).1 in
  let s := host σ in
  host σ' = s
  ∧ log σ' = log σ
  ∧ integrated_err (me σ') = integrated_err (me σ)
  ∧ targets (me σ') = targets (me σ)
  ∧ the_SEIR (me σ') = the_SEIR (me σ)
  ∧ start_day (me σ') = start_day (me σ)
  ∧ Controller (me σ') = Controller (me σ)
  ∧ beta0 (me σ') = Some (pars_beta s)
  ∧ beta_layer0 (me σ') = Some (pars_beta_layer s)
  ∧ if decide (0 ≤ pars_n_days s + 1)%Z
    then (initialize σ).2 = Ok tt
         ∧ u_k (me σ')
           = Some (replicate (Z.to_nat (pars_n_days s + 1)) (pars_beta s))
         ∧ Kalman (me σ')
           = Some (kf (count_true (people_exposed s)) (the_SEIR (me σ)))
    else (initialize σ).2 = Raise ValueError
         ∧ u_k (me σ') = u_k (me σ)
         ∧ Kalman (me σ') = Kalman (me σ).
Proof.
  intros σ' s. subst σ' s.
  unfold initialize, set_u_k, set_me, modify, raise, mbind, prog_bind, get.
  destruct (decide (0 ≤ pars_n_days (host σ) + 1)%Z); simpl; by repeat split.
Qed.

(** X17. Construction, [initialize] and [apply] fit together: for a host on
    a day of its run, with result arrays of [n_days + 1] entries, a nonzero
    [beta], a nonzero population and the five layers, and for targets with
    the key [infected] and a model with [Ipow], the intervention that
    [__init__] builds and [initialize] completes has everything a day of
    [apply] reads, with the day's own slot in [u_k]. *)
Theorem initialize_makes_ready (s : sim) (S : SEIR.obj) (tgts : gmap string Qc)
    (pole_loc : option Qc) (start : Z) (tg p : Qc) (l : list event) :
  (0 ≤ t s ≤ pars_n_days s)%Z →
  length (results_n_exposed s) = Z.to_nat (pars_n_days s + 1) →
  length (results_new_infections s) = Z.to_nat (pars_n_days s + 1) →
  pars_beta s ≠ 0 →
  scaled_pop_size s ≠ 0 →
  (∀ key, key ∈ layer_keys → is_Some (pars_beta_layer s !! key)) →
  tgts !! "infected" = Some tg →
  S !! "Ipow" = Some (SEIR.VFloat p) →
  ∃ σ' y,
    initialize {| host := s; me := __init__ S tgts pole_loc start; log := l |}
    = (σ', Ok tt)
    ∧ host σ' = s
    ∧ integrated_err (me σ') = 0
    ∧ ready σ' (kf (count_true (people_exposed s)) S)
        (replicate (Z.to_nat (pars_n_days s + 1)) (pars_beta s))
        (pars_beta s) (pars_beta_layer s) tg p y (Z.to_nat (t s)).
Proof.
  intros Ht Hlen Hlen' Hbeta HN Hkeys Htg Hp.
  assert (Hpos : ∀ ys : list Qc, length ys = Z.to_nat (pars_n_days s + 1) →
            is_Some (py_pos ys (t s - 1))).
  { intros ys Hys. unfold py_pos. cbv zeta. rewrite Hys.
    rewrite decide_True; [done|]. case_decide; lia. }
  destruct (getitem_pos _ _ (Hpos _ Hlen)) as [y Hy].
  eexists _, y. split; [|split; [|split]].
  - unfold initialize, set_u_k, set_me, modify, raise, mbind, prog_bind, get.
    simpl. rewrite decide_True by lia. reflexivity.
  - done.
  - done.
  - split; simpl; try done.
    + by apply Hpos.
    + unfold py_pos. cbv zeta. rewrite length_replicate.
      rewrite (decide_False (P := (t s < 0)%Z)) by lia.
      by rewrite decide_True by lia.
Qed.

End Rates.

(** ** The further properties on the sample days *)

(** Day 3 of the sample host is warm-up: the estimator moves half way to the
    observation and nothing is printed. *)
Lemma open_loop_day_witness :
  @controller_intervention.apply _ _ _ _ Toy.natural_power Toy.warm_up
  = ({| controller_intervention.host := Toy.host_on 3;
        controller_intervention.me :=
          controller_intervention.with_Kalman
            (Toy.intervention Toy.layers (num 3, 2) [- 1; 0; 0])
            (update (num 3, 2) (num 3 - num 2) (num 2) 1);
        controller_intervention.log :=
          [controller_intervention.KalmanUpdate (num 3 - num 2) (num 2) 1] |},
     Ok tt).
Proof.
  rewrite (@open_loop_day _ _ _ _ Toy.natural_power Toy.warm_up
             (num 3, 2) (num 3) 1).
  - reflexivity.
  - reflexivity.
  - reflexivity.
  - reflexivity.
  - reflexivity.
Defined.

(** An intervention that was constructed and not initialised. *)
Lemma apply_before_initialize_witness :
  @controller_intervention.apply _ _ _ _ Toy.natural_power (More.constructed 6)
  = (More.constructed 6, Raise AttributeError).
Proof.
  rewrite (@apply_before_initialize _ _ _ _ Toy.natural_power
             (More.constructed 6) (num 3) 1).
  - reflexivity.
  - reflexivity.
  - reflexivity.
  - reflexivity.
Defined.

(** Day 20 of the eleven-day sample run. *)
Lemma apply_without_results_witness :
  (@controller_intervention.apply _ _ _ _ Toy.natural_power
     (Toy.store_on 20 (num 3, 2) [- 1; 0; 0])).2
  = Raise IndexError.
Proof.
  rewrite (@apply_without_results _ _ _ _ Toy.natural_power
             (Toy.store_on 20 (num 3, 2) [- 1; 0; 0])).
  - reflexivity.
  - left. simpl. lia.
Defined.

(** Day 0 reads the entries 7 and 5 at the end of the arrays. *)
Lemma day_zero_reads_last_entries_witness :
  ∃ u,
    controller_intervention.KalmanUpdate (num 7 - num 2) (num 2) u
    ∈ emitted More.day_zero
        (@controller_intervention.apply _ _ _ _ Toy.natural_power
           More.day_zero).1
    ∧ u = num 5.
Proof.
  destruct (@day_zero_reads_last_entries _ _ _ _ Toy.natural_power
              More.day_zero (num 3, 2) [num 3; 2; 1] [1; 1; 1] (num 7) (num 5))
    as (u & Hu & Hopen).
  - reflexivity.
  - reflexivity.
  - reflexivity.
  - reflexivity.
  - exists u. split; [exact Hu|]. apply Hopen. reflexivity.
Defined.

Lemma four_layers_before_l (key : string) :
  key ∈ ["h"; "s"; "w"; "c"] → is_Some (More.four_layers !! key).
Proof.
  intros Hkey.
  repeat (apply elem_of_cons in Hkey as [->|Hkey]; [by eexists|]).
  by apply elem_of_nil in Hkey.
Qed.

(** A host with the layers h, s, w and c only: the day stops at [l]. *)
Lemma missing_layer_raises_KeyError_witness :
  ∃ σ',
    @controller_intervention.apply _ _ _ _ Toy.natural_power More.hybrid
    = (σ', Raise KeyError)
    ∧ controller_intervention.u_k (controller_intervention.me σ')
      = Some (replicate 11 (1 / num 50)).
Proof.
  destruct (@missing_layer_raises_KeyError _ _ _ _ Toy.natural_power
              More.hybrid (num 3, 2) (1 / num 50) More.four_layers 1
              (num 3) 1 ["h"; "s"; "w"; "c"] [] "l")
    as (σ' & Hrun & _ & _ & _ & Huk & _).
  - reflexivity.
  - reflexivity.
  - reflexivity.
  - reflexivity.
  - done.
  - done.
  - reflexivity.
  - reflexivity.
  - reflexivity.
  - reflexivity.
  - exact four_layers_before_l.
  - reflexivity.
  - done.
  - exists σ'. split; [exact Hrun|]. rewrite Huk. reflexivity.
Defined.

Lemma toy_layers_present (key : string) :
  key ∈ controller_intervention.layer_keys → is_Some (Toy.layers !! key).
Proof.
  intros Hkey. unfold controller_intervention.layer_keys in Hkey.
  repeat (apply elem_of_cons in Hkey as [->|Hkey]; [by eexists|]).
  by apply elem_of_nil in Hkey.
Qed.

(** Targets with the key [prevalence] only. *)
Lemma missing_target_raises_KeyError_witness :
  ∃ σ',
    @controller_intervention.apply _ _ _ _ Toy.natural_power More.without_target
    = (σ', Raise KeyError)
    ∧ controller_intervention.integrated_err (controller_intervention.me σ') = 0.
Proof.
  destruct (@missing_target_raises_KeyError _ _ _ _ Toy.natural_power
              More.without_target (num 3, 2) (replicate 11 (1 / num 50))
              (1 / num 50) Toy.layers 1 (num 3) 1 6)
    as (σ' & Hrun & _ & _ & _ & Herr).
  - reflexivity.
  - reflexivity.
  - reflexivity.
  - reflexivity.
  - reflexivity.
  - done.
  - done.
  - exact toy_layers_present.
  - reflexivity.
  - reflexivity.
  - reflexivity.
  - reflexivity.
  - reflexivity.
  - done.
  - exists σ'. split; [exact Hrun|]. rewrite Herr. reflexivity.
Defined.

Lemma toy_layers_nonnegative (key : string) (b : Qc) :
  Toy.layers !! key = Some b → 0 ≤ b.
Proof.
  unfold Toy.layers. intros Hb.
  repeat (apply lookup_insert_Some in Hb as [[_ <-]|[_ Hb]]; [done|]).
  by rewrite lookup_empty in Hb.
Qed.

(** The closed-loop day of the sample host. *)
Lemma rates_stay_nonnegative_witness :
  ∃ σ' nb,
    @controller_intervention.apply _ _ _ _ Toy.natural_power Toy.closed
    = (σ', Ok tt)
    ∧ controller_intervention.u_k (controller_intervention.me σ')
      = Some (<[6%nat := nb]> (replicate 11 (1 / num 50)))
    ∧ 0 ≤ nb.
Proof.
  destruct (@rates_stay_nonnegative _ _ _ _ Toy.natural_power
              Toy.closed _ _ _ _ _ _ _ _
              (toy_ready (num 3, 2) [- 1; 0; 0]) eq_refl)
    as (σ' & nb & Hrun & Huk & Hnb & _).
  - done.
  - exact toy_layers_nonnegative.
  - done.
  - exists σ', nb. split; [exact Hrun|]. split; [exact Huk|exact Hnb].
Defined.

(** The closed-loop day of the sample host, begun with the rate of [h] at 7
    in place of 3. *)
Lemma rates_do_not_compound_witness :
  ∃ σ' τ',
    @controller_intervention.apply _ _ _ _ Toy.natural_power Toy.closed
    = (σ', Ok tt)
    ∧ @controller_intervention.apply _ _ _ _ Toy.natural_power More.second_day
      = (τ', Ok tt)
    ∧ ∀ key, key ∈ controller_intervention.layer_keys →
        controller_intervention.pars_beta_layer
          (controller_intervention.host τ') !! key
        = controller_intervention.pars_beta_layer
            (controller_intervention.host σ') !! key.
Proof.
  destruct (@rates_do_not_compound _ _ _ _ Toy.natural_power
              Toy.closed (<["h" := num 7]> Toy.layers) _ _ _ _ _ _ _ _
              (toy_ready (num 3, 2) [- 1; 0; 0]) eq_refl)
    as (σ' & τ' & Hrun & Hrun' & Hsame & _).
  - done.
  - exists σ', τ'. split; [exact Hrun|]. split; [exact Hrun'|exact Hsame].
Defined.

(** The sample host on day 6, from the constructor on. *)
Lemma initialize_makes_ready_witness :
  ∃ σ' y,
    @controller_intervention.initialize _ _ Toy.averaging (More.constructed 6)
    = (σ', Ok tt)
    ∧ ready σ' (num 3, 0) (replicate 11 (1 / num 50)) (1 / num 50)
        Toy.layers 2 1 y 6.
Proof.
  destruct (@initialize_makes_ready _ _ Toy.averaging Toy.state_feedback
              (Toy.host_on 6) {[ "Ipow" := SEIR.VFloat 1 ]}
              {[ "infected" := 2 ]} None 5 2 1 [])
    as (σ' & y & Hrun & _ & _ & Hready).
  - simpl. lia.
  - reflexivity.
  - reflexivity.
  - done.
  - done.
  - exact toy_layers_present.
  - reflexivity.
  - reflexivity.
  - exists σ', y. split; [exact Hrun|exact Hready].
Defined.

(** ** The log of a closed-loop day *)

Section Order.
Import controller_intervention.
Context {K Ct : Type} `{Estimator K} `{Feedback Ct} `{Power}.

Lemma new_rate_lines (s : sim) (m : self K Ct) l u xs N xi p b0 :
  the_SEIR m !! "Ipow" = Some (SEIR.VFloat p) →
  beta0 m = Some b0 →
  N ≠ 0 → xs ≠ 0 → (0 < xi → power xi p ≠ 0) →
  new_rate u xs N xi {| host := s; me := m; log := l |}
  = ({| host := s; me := m;
        log := l ++ rate_lines {| host := s; me := m; log := l |} xi |},
     Ok (requested_rate u xs N xi p b0)).
Proof.
  intros Hp Hb0 HN Hxs Hpow. unfold new_rate, requested_rate, rate_lines.
  unfold mbind at 1, prog_bind, get.
  destruct (decide (0 < xi)) as [Hxi|Hxi].
  - specialize (Hpow Hxi).
    assert (HSI : xs * power xi p / N ≠ 0).
    { intros Hz. apply (f_equal (fun q => q * N)) in Hz.
      rewrite Qcmult_0_l in Hz. unfold Qcdiv in Hz.
      rewrite <- Qcmult_assoc, (Qcmult_comm (/ N)), Qcmult_inv_r, Qcmult_1_r in Hz
        by done.
      apply Qcmult_integral in Hz as [?|?]; done. }
    unfold Ipow, SEIR.getattr, when, print, emit, modify, lift, divide,
      mret, prog_ret, mbind, prog_bind, get.
    simpl. rewrite Hp. simpl.
    rewrite (decide_False (P := N = 0)) by done. simpl.
    rewrite (decide_False (P := xs * power xi p / N = 0)) by done.
    destruct (verbose m); simpl; by rewrite ?app_nil_r.
  - unfold print, emit, attr, modify, mbind, prog_bind, get. simpl.
    by rewrite Hb0.
Qed.

(** X18. What a closed-loop day does, in order: the two opening lines when
    [verbose] is set; one call of [get_control], on the estimate from before
    the day's update with the integral error appended; one call of the
    estimator's [update], with the control signal clamped at zero; the
    warning when the estimate is not positive (also when [verbose] is off),
    or the line about shrinking when [verbose] is set; and the two closing
    lines when [verbose] is set, which show the integral error from before
    its update.  With [verbose] off and a positive estimate nothing is
    printed. *)
Theorem closed_loop_log (σ : store K Ct) k uk b0 bl0 tg p y slot (x : Qc) :
  ready σ k uk b0 bl0 tg p y slot →
  getitem (results_new_infections (host σ)) (t (host σ) - 1) = Ok x →
  open_loop σ = false →
  let I := infectious (host σ) in
  let Xu := EIhat k ++ [integrated_err (me σ)] in
  let u := maximum (get_control (Controller (me σ)) Xu) 0 in
  let xi := early_weighted (Ihat (update k (y - I) I u)) in
  (0 < xi → power xi p ≠ 0) →
  emitted σ (apply σ).1
  = day_header σ x
    ++ [GetControl Xu; KalmanUpdate (y - I) I u]
    ++ rate_lines σ xi
    ++ closing_lines σ u y tg
  ∧ (verbose (me σ) = false → 0 < xi →
     emitted σ (apply σ).1 = [GetControl Xu; KalmanUpdate (y - I) I u]).
Proof.
  intros [HK Huk Hb0 Hbl0 Htg Hp Hnz HN Hkeys Hy _ Hslot] Hx Hopen I Xu u xi Hpow.
  pose proof (proj1 (open_loop_false σ) Hopen) as (_ & HS & _).
  assert (Hlog : emitted σ (apply σ).1
                 = day_header σ x
                   ++ [GetControl Xu; KalmanUpdate (y - I) I u]
                   ++ rate_lines σ xi
                   ++ closing_lines σ u y tg).
  { apply emitted_app.
    rewrite (apply_enters_actuate σ k y x HK Hy Hx Hopen).
    fold I Xu u.
    destruct σ as [s m l]. simpl in *.
    set (k' := update k (y - I) I u) in *.
    set (l2 := l ++ day_header {| host := s; me := m; log := l |} x
               ++ [GetControl Xu; KalmanUpdate (y - I) I u]).
    pose proof (new_rate_lines s (with_Kalman m k') l2 u (susceptible s)
                  (scaled_pop_size s) xi p b0 Hp Hb0 HN HS Hpow) as Hnr.
    destruct (layers_loop layer_keys s (with_Kalman m k')
                (l2 ++ rate_lines {| host := s; me := with_Kalman m k';
                                     log := l2 |} xi)
                (requested_rate u (susceptible s) (scaled_pop_size s) xi p b0)
                bl0 b0)
      as (bl' & Hloop & _); [done..|].
    unfold actuate.
    rewrite (bind_ok get _ _ _ _ eq_refl). cbv zeta. simpl host. simpl me.
    rewrite (bind_ok (attr Kalman) _ _ _ k') by (by apply attr_ok).
    fold xi. rewrite (bind_ok _ _ _ _ _ Hnr).
    rewrite (bind_ok _ _ _ _ _ Hloop).
    rewrite (bind_ok the_u_k _ _ _ uk) by (by apply the_u_k_ok).
    unfold setitem. simpl t. rewrite Hslot.
    rewrite (bind_ok (lift _) _ _ _ _ eq_refl).
    rewrite (bind_ok (set_u_k _) _ _ _ _ eq_refl).
    unfold dict_get. rewrite Hy.
    cbn [targets verbose integrated_err with_Kalman]. rewrite Htg.
    subst l2. unfold rate_lines, closing_lines, day_header. simpl.
    destruct (verbose m); simpl;
      unfold print, emit, set_integrated_err, set_me, modify, lift, mret,
        prog_ret, mbind, prog_bind; simpl;
      by rewrite <- ?app_assoc, ?app_nil_r. }
  split; [exact Hlog|].
  intros Hv Hxi. rewrite Hlog.
  unfold day_header, rate_lines, closing_lines.
  rewrite Hv, decide_True by done. by rewrite app_nil_r.
Qed.

End Order.

(** The closed-loop day of the sample host: the two calls and no line. *)
Lemma closed_loop_log_witness :
  emitted Toy.closed
    (@controller_intervention.apply _ _ _ _ Toy.natural_power Toy.closed).1
  = [controller_intervention.GetControl [num 3; 2; 0];
     controller_intervention.KalmanUpdate (num 3 - num 2) (num 2)
       (maximum (get_control [- 1; 0; 0] [num 3; 2; 0]) 0)].
Proof.
  destruct (@closed_loop_log _ _ _ _ Toy.natural_power
              Toy.closed _ _ _ _ _ _ _ _ 1
              (toy_ready (num 3, 2) [- 1; 0; 0]) eq_refl eq_refl)
    as [_ Hquiet].
  - done.
  - rewrite Hquiet.
    + reflexivity.
    + reflexivity.
    + done.
Defined.
